(** * Shallow embedding of [fix_license_header.py] (glotzerlab/fix-license-header)

    Python [bytes] are modelled as [list byte].  The file handle [f] given to
    [fix_file] is a byte stream positioned at offset 0: its whole content is
    the list [f]; [f.readline()] splits off the first line (up to and
    including the first [b'\n'], or everything at end of stream) and
    [f.read()] returns what is left.  The rewrite branch [f.seek(0);
    f.truncate(); f.write(...)...] replaces the content with the
    concatenation of the writes.

    The classification loop of [fix_file] has no end-of-stream test, so it
    is modelled with an explicit fuel argument: [None] means the fuel ran
    out.  [fix_file] itself runs with [S (length f)] units of fuel. *)

From Stdlib Require Import Strings.Ascii Strings.String.
From Stdlib Require Import List Bool Arith Lia Strings.Byte ZArith.
Import ListNotations.

Definition bytes := list byte.

(** Byte-string literals: [b "abc"] is Python's [b'abc']. *)
Definition b (s : String.string) : bytes := String.list_byte_of_string s.

Definition LF : byte := x0a.
Definition CR : byte := x0d.

Definition bytes_eqb (x y : bytes) : bool :=
  if list_eq_dec byte_eq_dec x y then true else false.

Definition lines_eqb (x y : list bytes) : bool :=
  if list_eq_dec (list_eq_dec byte_eq_dec) x y then true else false.

(** [f.readline()] on a stream whose unread content is [s]: the line read
    and the unread content left. *)
Fixpoint readline (s : bytes) : bytes * bytes :=
  match s with
  | [] => ([], [])
  | c :: s' =>
      if Byte.eqb c LF then ([c], s')
      else let '(l, r) := readline s' in (c :: l, r)
  end.

(** [s.startswith(prefix)] *)
Fixpoint startswith (s prefix : bytes) : bool :=
  match prefix, s with
  | [], _ => true
  | p :: ps, c :: cs => Byte.eqb c p && startswith cs ps
  | _ :: _, [] => false
  end.

(** [s.endswith(suffix)] *)
Definition endswith (s suffix : bytes) : bool :=
  startswith (rev s) (rev suffix).

(** [any([line.startswith(s) for s in ks])] *)
Definition any_startswith (line : bytes) (ks : list bytes) : bool :=
  existsb (fun k => startswith line k) ks.

(** ASCII whitespace as recognised by [bytes.strip()]:
    space, \t, \n, \r, \x0b, \x0c. *)
Definition isspace (c : byte) : bool :=
  match c with
  | x20 | x09 | x0a | x0d | x0b | x0c => true
  | _ => false
  end.

Fixpoint lstrip (s : bytes) : bytes :=
  match s with
  | [] => []
  | c :: s' => if isspace c then lstrip s' else s
  end.

Definition rstrip (s : bytes) : bytes := rev (lstrip (rev s)).

(** [s.strip()]: whitespace removed at both ends. *)
Definition strip (s : bytes) : bytes := rstrip (lstrip s).

(** The state of [fix_file] when the classification loop exits. *)
Record region := mkRegion {
  before : bytes;
  after : bytes;
  file_header : list bytes;
  file_contents : bytes  (* [line + f.read()] *)
}.

(** The condition of the [while] loop (line 38). *)
Definition loop_cond (prefix : bytes) (keep_before : list bytes) (line : bytes) : bool :=
  startswith line prefix || any_startswith line keep_before.

(** The body of the [while] loop without the final [readline]
    (lines 39-44), on the accumulators [before], [after], [file_header]. *)
Definition classify (prefix : bytes) (keep_before keep_after : list bytes)
    (line : bytes) (acc : bytes * bytes * list bytes) : bytes * bytes * list bytes :=
  let '(before, after, file_header) := acc in
  if any_startswith line keep_before then (before ++ line, after, file_header)
  else if any_startswith line keep_after then (before, after ++ line, file_header)
  else (before, after, file_header ++ [strip (skipn (length prefix) line)]).

(** The loop (lines 38-45) followed by [file_contents = line + f.read()]
    (line 48); [line] is the current line, [rest] the unread stream. *)
Fixpoint scan (fuel : nat) (prefix : bytes) (keep_before keep_after : list bytes)
    (line rest : bytes) (acc : bytes * bytes * list bytes) : option region :=
  match fuel with
  | O => None
  | S n =>
      if loop_cond prefix keep_before line then
        let acc' := classify prefix keep_before keep_after line acc in
        let '(line', rest') := readline rest in
        scan n prefix keep_before keep_after line' rest' acc'
      else
        let '(before, after, file_header) := acc in
        Some (mkRegion before after file_header (line ++ rest))
  end.

(** Line-ending detection from the first line (lines 29-33). *)
Definition line_ending_of (first_line : bytes) : bytes :=
  if endswith first_line [CR; LF] then [CR; LF] else [LF].

(** The test of lines 51-53. *)
Definition header_ok (header_lines : list bytes) (line_ending : bytes) (r : region) : bool :=
  lines_eqb (file_header r) header_lines &&
  (bytes_eqb (file_contents r) [] || startswith (file_contents r) line_ending).

(** One written header line: [prefix + line + line_ending] (line 61). *)
Definition header_line (prefix line_ending line : bytes) : bytes :=
  prefix ++ line ++ line_ending.

(** The bytes written by the rewrite branch (lines 57-67). *)
Definition rewrite (header_lines : list bytes) (prefix line_ending : bytes) (r : region) : bytes :=
  before r
  ++ concat (map (header_line prefix line_ending) header_lines)
  ++ (if Nat.ltb 0 (length (after r)) then line_ending ++ after r else [])
  ++ (if Nat.ltb 0 (length (file_contents r)) && negb (startswith (file_contents r) line_ending)
      then line_ending else [])
  ++ file_contents r.

(** [fix_file(f, header_lines, prefix, keep_before, keep_after)] with the
    loop bounded by [fuel]: the returned status and the stream content
    afterwards. *)
Definition fix_file_fuel (fuel : nat) (f : bytes) (header_lines : list bytes)
    (prefix : bytes) (keep_before keep_after : list bytes) : option (nat * bytes) :=
  let '(line, rest) := readline f in
  let line_ending := line_ending_of line in
  match scan fuel prefix keep_before keep_after line rest ([], [], []) with
  | None => None
  | Some r =>
      if header_ok header_lines line_ending r then Some (0, f)
      else Some (1, rewrite header_lines prefix line_ending r)
  end.

Definition fix_file (f : bytes) (header_lines : list bytes)
    (prefix : bytes) (keep_before keep_after : list bytes) : option (nat * bytes) :=
  fix_file_fuel (S (length f)) f header_lines prefix keep_before keep_after.

(** The region computed by [fix_file] on [f], and its line ending. *)
Definition region_of (fuel : nat) (f : bytes) (prefix : bytes)
    (keep_before keep_after : list bytes) : option region :=
  let '(line, rest) := readline f in
  scan fuel prefix keep_before keep_after line rest ([], [], []).

Definition line_ending_of_file (f : bytes) : bytes := line_ending_of (fst (readline f)).

(** ** Leading lines

    [splits s ls t]: reading [s] line by line gives the lines [ls] and
    leaves [t] unread. *)
Inductive splits : bytes -> list bytes -> bytes -> Prop :=
| splits_nil : forall s, splits s [] s
| splits_cons : forall s l s' ls t,
    readline s = (l, s') -> splits s' ls t -> splits s (l :: ls) t.

(** The loop body run over a list of lines. *)
Definition classify_all (prefix : bytes) (keep_before keep_after : list bytes)
    (ls : list bytes) (acc : bytes * bytes * list bytes) : bytes * bytes * list bytes :=
  fold_left (fun acc l => classify prefix keep_before keep_after l acc) ls acc.

Definition region_with (acc : bytes * bytes * list bytes) (t : bytes) : region :=
  let '(bf, af, hd) := acc in mkRegion bf af hd t.

(** A line ended by its only newline. *)
Definition complete (l : bytes) : Prop := exists x, l = x ++ [LF] /\ ~ In LF x.

(** ** The file loop of [main] (lines 187-214)

    The arguments are already parsed: [comment_prefix] is
    [args.comment_prefix], [header_lines], [keep_before] and [keep_after] are
    the byte strings built before the loop.  Python [str] values are
    modelled as [string] (their UTF-8 encoding is [b]).  The file system
    maps a path to the content of the file, if it exists. *)

Definition fsys := string -> option bytes.

Definition fs_update (fs : fsys) (name : string) (content : bytes) : fsys :=
  fun n => if String.eqb n name then Some content else fs n.

(** [file_type_comment_map] (lines 73-107). *)
Definition file_type_comment_map : list (string * string) :=
  [("asm", ";"); ("c", "//"); ("cc", "//"); ("cpp", "//"); ("c++", "//");
   ("cs", "//"); ("cu", "//"); ("cuh", "//"); ("dockerfile", "#");
   ("gleam", "//"); ("go", "//"); ("h", "//"); ("hpp", "//"); ("h++", "//");
   ("inc", "//"); ("java", "//"); ("js", "//"); ("json", "//"); ("lua", "--");
   ("php", "//"); ("pl", "#"); ("py", "#"); ("pyc", "#"); ("pxd", "#");
   ("pyx", "#"); ("rb", "#"); ("rs", "//"); ("rst", ".."); ("sh", "#");
   ("sql", "--"); ("swift", "//"); ("yaml", "#"); ("yml", "#")]%string.

(** [file_type_comment_map.get(extension, None)] *)
Fixpoint map_get (m : list (string * string)) (k : string) : option string :=
  match m with
  | [] => None
  | (k', v) :: m' => if String.eqb k k' then Some v else map_get m' k
  end.

Fixpoint has_dot (s : string) : bool :=
  match s with
  | EmptyString => false
  | String c s' => Ascii.eqb c "."%char || has_dot s'
  end.

(** [filename.split('.')[-1]]: what follows the last dot, or the whole
    name when it has none. *)
Fixpoint extension_of (s : string) : string :=
  match s with
  | EmptyString => EmptyString
  | String c s' =>
      if has_dot s' then extension_of s'
      else if Ascii.eqb c "."%char then s' else s
  end.

(** How the loop ends: [sys.exit(return_value)], an uncaught exception, or
    a call of [fix_file] that never returns. *)
Inductive outcome :=
| Exited (code : nat)
| Raised (exc : string)
| Diverged.

Record run := mkRun { outcome_of : outcome; stdout : list string; files : fsys }.

Fixpoint main_loop (comment_prefix : option string) (header_lines : list bytes)
    (keep_before keep_after : list bytes) (filenames : list string)
    (fs : fsys) (return_value : nat) (out : list string) : run :=
  match filenames with
  | [] => mkRun (Exited return_value) out fs
  | filename :: rest =>
      let prefix :=
        match comment_prefix with
        | None => map_get file_type_comment_map (extension_of filename)
        | Some p => Some p
        end in
      match prefix with
      | None => mkRun (Raised "ValueError"%string) out fs
      | Some prefix =>
          match fs filename with
          | None => mkRun (Raised "FileNotFoundError"%string) out fs
          | Some content =>
              match fix_file content header_lines (b prefix ++ [x20]) keep_before keep_after with
              | None => mkRun Diverged out fs
              | Some (status, content') =>
                  let out' := if Nat.eqb status 0 then out
                              else out ++ [String.append "Updated license header in " filename] in
                  main_loop comment_prefix header_lines keep_before keep_after rest
                    (fs_update fs filename content') (Nat.lor return_value status) out'
              end
          end
      end
  end.

Definition main_files (comment_prefix : option string) (header_lines : list bytes)
    (keep_before keep_after : list bytes) (filenames : list string) (fs : fsys) : run :=
  main_loop comment_prefix header_lines keep_before keep_after filenames fs 0 [].

(** The exit status of the process: [sys.exit(n)] exits with [n], an
    uncaught exception with 1. *)
Definition exit_status (o : outcome) : option nat :=
  match o with
  | Exited n => Some n
  | Raised _ => Some 1
  | Diverged => None
  end.

(** ** Building the header and the keep lists (lines 148-185)

    The arguments are given already parsed: [license_file], [start] and
    [num] are [args.license_file], [args.start] and [args.num] ([start] and
    [num] are Python ints, hence [Z]; [range] of a negative int is empty);
    [add], [keep_before] and [keep_after] are the lists built by
    [action='append'], [None] when the option is absent.  The warnings that
    lines 161-177 print on standard error about the copyright year are not
    modelled; the one effect of that loop that is modelled is the
    [UnicodeDecodeError] raised by [line.decode('utf-8')] on a header line
    that is not valid UTF-8. *)

(** [for _ in range(n): license_file.readline()] *)
Fixpoint skip_lines (n : nat) (s : bytes) : bytes :=
  match n with
  | O => s
  | S n' => skip_lines n' (snd (readline s))
  end.

(** [for _ in range(n): header_lines.append(license_file.readline().strip())] *)
Fixpoint read_stripped (n : nat) (s : bytes) : list bytes :=
  match n with
  | O => []
  | S n' => let '(l, r) := readline s in strip l :: read_stripped n' r
  end.

(** [[s.encode('utf-8') for s in xs]] for an [append] option, [[]] when the
    option is absent. *)
Definition encode_all (xs : option (list string)) : list bytes :=
  match xs with
  | None => []
  | Some l => map b l
  end.

(** Lines 149-159: the header lines, or [None] when [open] of the license
    file fails. *)
Definition build_header (fs : fsys) (license_file : option string) (start num : Z)
    (add : option (list string)) : option (list bytes) :=
  match license_file with
  | None => Some (encode_all add)
  | Some path =>
      match fs path with
      | None => None
      | Some content =>
          Some (read_stripped (Z.to_nat num) (skip_lines (Z.to_nat start) content)
                ++ encode_all add)
      end
  end.

Definition in_range (c : byte) (lo hi : nat) : bool :=
  (lo <=? Byte.to_nat c) && (Byte.to_nat c <=? hi).

(** Whether [s.decode('utf-8')] succeeds: the strict UTF-8 decoder rejects
    overlong forms, surrogates and code points above U+10FFFF. *)
Fixpoint utf8_valid (s : bytes) : bool :=
  match s with
  | [] => true
  | c :: s1 =>
      if in_range c 0 127 then utf8_valid s1
      else if in_range c 194 223 then
        match s1 with
        | c1 :: s2 => in_range c1 128 191 && utf8_valid s2
        | [] => false
        end
      else if in_range c 224 239 then
        match s1 with
        | c1 :: c2 :: s3 =>
            in_range c1 (if Byte.eqb c xe0 then 160 else 128)
                        (if Byte.eqb c xed then 159 else 191) &&
            in_range c2 128 191 && utf8_valid s3
        | _ => false
        end
      else if in_range c 240 244 then
        match s1 with
        | c1 :: c2 :: c3 :: s4 =>
            in_range c1 (if Byte.eqb c xf0 then 144 else 128)
                        (if Byte.eqb c xf4 then 143 else 191) &&
            in_range c2 128 191 && in_range c3 128 191 && utf8_valid s4
        | _ => false
        end
      else false
  end.

(** The copyright-year check of lines 160-177, line by line in order: the
    line is decoded as UTF-8 ([UnicodeDecodeError], a subclass of
    [ValueError], when it is not valid), then searched with the two
    copyright patterns and its year converted by [int(match.group(1))]
    (line 173).  [year_ok h] is [false] exactly when that conversion raises
    [ValueError] (on Python 3.11 and later, a year of more than 4300 digits
    exceeds the integer string conversion limit); the regular expressions
    are not modelled, so every theorem about [main] holds for any
    [year_ok].  The warning about a year that is not current goes to
    stderr and changes nothing else. *)
Fixpoint check_years (year_ok : bytes -> bool) (header_lines : list bytes) : option string :=
  match header_lines with
  | [] => None
  | h :: hl =>
      if negb (utf8_valid h) then Some "UnicodeDecodeError"%string
      else if negb (year_ok h) then Some "ValueError"%string
      else check_years year_ok hl
  end.

(** [main(argv)] after argument parsing: build the header (a missing
    license file raises), check the copyright year of every header line
    (an exception propagates out of [main]), encode the keep lists, then
    run the file loop. *)
Definition main (year_ok : bytes -> bool) (fs : fsys) (license_file : option string)
    (start num : Z) (add keep_before keep_after : option (list string))
    (comment_prefix : option string) (filenames : list string) : run :=
  match build_header fs license_file start num add with
  | None => mkRun (Raised "FileNotFoundError"%string) [] fs
  | Some header_lines =>
      match check_years year_ok header_lines with
      | Some exn => mkRun (Raised exn) [] fs
      | None =>
          main_files comment_prefix header_lines (encode_all keep_before)
            (encode_all keep_after) filenames fs
      end
  end.

(** ** Examples *)

Example ex_shebang :
  fix_file (b "#!/usr/bin/env python" ++ [LF] ++ b "# old header" ++ [LF] ++ b "body" ++ [LF]) [b "new header"] (b "# ") [b "#!"] [] =
  Some (1, b "#!/usr/bin/env python" ++ [LF] ++ b "# new header" ++ [LF] ++ [LF] ++ b "body" ++ [LF]).
Proof. vm_compute. reflexivity. Qed.

(** ** Lemmas on the byte-string primitives *)

Lemma readline_app : forall s l r, readline s = (l, r) -> l ++ r = s.
Proof.
  induction s as [|c s IH]; simpl; intros l r H.
  - inversion H; reflexivity.
  - destruct (Byte.eqb c LF).
    + inversion H; reflexivity.
    + destruct (readline s) as [l' r'] eqn:E.
      inversion H; subst. simpl. f_equal. apply IH. reflexivity.
Qed.

Lemma readline_nil : forall s r, readline s = ([], r) -> s = [] /\ r = [].
Proof.
  intros [|c s] r H; simpl in H.
  - inversion H; auto.
  - destruct (Byte.eqb c LF); [discriminate|].
    destruct (readline s); discriminate.
Qed.

Lemma readline_length : forall s l r,
  readline s = (l, r) -> List.length l + List.length r = List.length s.
Proof.
  intros s l r H. apply readline_app in H. subst. symmetry. apply length_app.
Qed.

Lemma startswith_nil_l : forall k, k <> [] -> startswith [] k = false.
Proof. intros [|c k] H; [contradiction|reflexivity]. Qed.

Lemma any_startswith_nil : forall ks,
  Forall (fun k => k <> []) ks -> any_startswith [] ks = false.
Proof.
  induction 1 as [|k ks Hk _ IH]; [reflexivity|].
  unfold any_startswith in *. destruct k as [|c k]; [contradiction|]. exact IH.
Qed.

(** With a non-empty prefix and non-empty keep-before prefixes the empty
    line read at end of stream leaves the loop. *)
Lemma loop_cond_nil : forall prefix keep_before,
  prefix <> [] -> Forall (fun k => k <> []) keep_before ->
  loop_cond prefix keep_before [] = false.
Proof.
  intros prefix keep_before Hp Hk. unfold loop_cond.
  rewrite startswith_nil_l by exact Hp. rewrite any_startswith_nil by exact Hk.
  reflexivity.
Qed.

Lemma startswith_app : forall p s, startswith (p ++ s) p = true.
Proof.
  induction p as [|c p IH]; intros s; [destruct s; reflexivity|].
  simpl. rewrite IH, Bool.andb_true_r. apply Byte.byte_dec_lb. reflexivity.
Qed.

Lemma startswith_skipn : forall p s,
  startswith s p = true -> s = p ++ skipn (List.length p) s.
Proof.
  induction p as [|c p IH]; intros [|d s] H; simpl in *; try discriminate; auto.
  apply Bool.andb_true_iff in H as [H1 H2].
  apply Byte.byte_dec_bl in H1. subst. f_equal. apply IH. exact H2.
Qed.

Lemma skipn_length_app : forall (p s : bytes), skipn (List.length p) (p ++ s) = s.
Proof. induction p as [|c p IH]; intros s; simpl; auto. Qed.

(** ** The loop *)

(** The loop never exits with the empty prefix: every line, the empty one
    read at end of stream included, starts with it. *)
Lemma scan_empty_prefix : forall n keep_before keep_after line rest acc,
  scan n [] keep_before keep_after line rest acc = None.
Proof.
  induction n as [|n IH]; intros keep_before keep_after line rest acc; [reflexivity|].
  simpl. unfold loop_cond.
  replace (startswith line []) with true by (destruct line; reflexivity). simpl.
  destruct (readline rest). apply IH.
Qed.

Lemma scan_some : forall prefix keep_before keep_after,
  prefix <> [] -> Forall (fun k => k <> []) keep_before ->
  forall n line rest acc,
  List.length line + List.length rest < n -> (line = [] -> rest = []) ->
  exists r, scan n prefix keep_before keep_after line rest acc = Some r.
Proof.
  intros prefix keep_before keep_after Hp Hk.
  induction n as [|n IH]; intros line rest acc Hlen Hnil; [lia|].
  simpl. destruct (loop_cond prefix keep_before line) eqn:C.
  - destruct (readline rest) as [l' r'] eqn:E.
    apply IH.
    + apply readline_length in E.
      destruct line as [|c line].
      * rewrite loop_cond_nil in C by assumption. discriminate.
      * simpl in Hlen. lia.
    + intros ->. apply readline_nil in E. tauto.
  - destruct acc as [[bf af] hd]. eexists. reflexivity.
Qed.

Lemma scan_mono : forall n prefix keep_before keep_after line rest acc r,
  scan n prefix keep_before keep_after line rest acc = Some r ->
  scan (S n) prefix keep_before keep_after line rest acc = Some r.
Proof.
  induction n as [|n IH]; intros prefix keep_before keep_after line rest acc r H;
    [discriminate|].
  remember (S n) as m. simpl. subst m. simpl in H.
  destruct (loop_cond prefix keep_before line); [|exact H].
  destruct (readline rest). apply IH. exact H.
Qed.

Lemma scan_mono_le : forall n m prefix keep_before keep_after line rest acc r,
  n <= m ->
  scan n prefix keep_before keep_after line rest acc = Some r ->
  scan m prefix keep_before keep_after line rest acc = Some r.
Proof.
  intros n m prefix keep_before keep_after line rest acc r Hle H.
  induction Hle; auto. apply scan_mono. assumption.
Qed.

Lemma header_ok_spec : forall header_lines line_ending r,
  header_ok header_lines line_ending r = true <->
  file_header r = header_lines /\
  (file_contents r = [] \/ startswith (file_contents r) line_ending = true).
Proof.
  intros header_lines line_ending r. unfold header_ok, lines_eqb, bytes_eqb.
  destruct (list_eq_dec (list_eq_dec byte_eq_dec) (file_header r) header_lines) as [E|E];
  destruct (list_eq_dec byte_eq_dec (file_contents r) []) as [F|F]; simpl;
  split; intuition (try discriminate; try congruence).
Qed.

Lemma fix_file_region : forall f header_lines prefix keep_before keep_after r,
  region_of (S (List.length f)) f prefix keep_before keep_after = Some r ->
  fix_file f header_lines prefix keep_before keep_after =
  if header_ok header_lines (line_ending_of_file f) r then Some (0, f)
  else Some (1, rewrite header_lines prefix (line_ending_of_file f) r).
Proof.
  intros f header_lines prefix keep_before keep_after r H.
  unfold fix_file, fix_file_fuel, region_of, line_ending_of_file in *.
  destruct (readline f) as [line rest]. cbn -[scan] in *. rewrite H. reflexivity.
Qed.

(** ** [strip] *)

Definition all_space (u : bytes) : Prop := Forall (fun c => isspace c = true) u.

Lemma lstrip_spec : forall s, exists u,
  s = u ++ lstrip s /\ all_space u /\
  (lstrip s = [] \/ exists c t, lstrip s = c :: t /\ isspace c = false).
Proof.
  induction s as [|c s IH].
  - exists []. simpl. repeat split; auto. constructor.
  - simpl. destruct (isspace c) eqn:Hc.
    + destruct IH as [u [Hs [Hu Hl]]]. exists (c :: u).
      repeat split; auto.
      * simpl. f_equal. exact Hs.
      * constructor; assumption.
    + exists []. repeat split; [constructor|]. right. eauto.
Qed.

Lemma strip_spec : forall s, exists u v,
  s = u ++ strip s ++ v /\ all_space u /\ all_space v /\
  (strip s = [] \/
   ((exists c t, strip s = c :: t /\ isspace c = false) /\
    (exists t c, strip s = t ++ [c] /\ isspace c = false))).
Proof.
  intros s. unfold strip, rstrip.
  destruct (lstrip_spec s) as [u [Hs [Hu Hl]]].
  remember (lstrip s) as ls eqn:Els. clear Els.
  destruct (lstrip_spec (rev ls)) as [w [Hr [Hw HL]]].
  remember (lstrip (rev ls)) as L eqn:EL. clear EL.
  assert (Hls : ls = rev L ++ rev w).
  { rewrite <- rev_app_distr, <- Hr, rev_involutive. reflexivity. }
  exists u, (rev w). repeat split.
  - rewrite Hs at 1. rewrite Hls. reflexivity.
  - exact Hu.
  - apply Forall_rev. exact Hw.
  - destruct HL as [HL|[c [t [HL Hc]]]]; [left; rewrite HL; reflexivity|].
    right. subst L. split.
    + destruct Hl as [Hl|[c' [t' [Hl Hc']]]].
      * subst ls. simpl in Hls. destruct (rev t); discriminate.
      * simpl. simpl in Hls. rewrite Hl in Hls.
        destruct (rev t) as [|d r] eqn:Et; simpl in Hls; inversion Hls; subst;
          simpl; eexists; eexists; split; first [reflexivity|assumption].
    + exists (rev t), c. split; [reflexivity|exact Hc].
Qed.

(** ** The loop over a list of lines *)

Section Loop.
Variables (prefix : bytes) (keep_before keep_after : list bytes).

Let cond := loop_cond prefix keep_before.

Lemma scan_splits : forall s ls t,
  splits s ls t -> Forall (fun l => cond l = true) ls -> cond (fst (readline t)) = false ->
  forall n acc,
  scan (S (List.length ls) + n) prefix keep_before keep_after
    (fst (readline s)) (snd (readline s)) acc =
  Some (region_with (classify_all prefix keep_before keep_after ls acc) t).
Proof.
  induction 1 as [s|s l s' ls t E Hs IH]; intros Hall Hc n acc.
  - destruct (readline s) as [line rest] eqn:E. simpl in *. unfold cond in Hc.
    rewrite Hc. destruct acc as [[bf af] hd]. simpl.
    rewrite (readline_app _ _ _ E). reflexivity.
  - inversion Hall as [|? ? Hl Hls]; subst. rewrite E.
    cbn [fst snd List.length Nat.add]. simpl scan. unfold cond in Hl. rewrite Hl.
    specialize (IH Hls Hc n (classify prefix keep_before keep_after l acc)).
    destruct (readline s') as [l' r'] eqn:E'. exact IH.
Qed.

Lemma scan_inv : forall n s line rest acc r,
  readline s = (line, rest) ->
  scan n prefix keep_before keep_after line rest acc = Some r ->
  exists ls t, splits s ls t /\ Forall (fun l => cond l = true) ls /\
    cond (fst (readline t)) = false /\
    r = region_with (classify_all prefix keep_before keep_after ls acc) t.
Proof.
  induction n as [|n IH]; intros s line rest acc r E H; [discriminate|].
  simpl in H. destruct (loop_cond prefix keep_before line) eqn:C.
  - destruct (readline rest) as [l' r'] eqn:E'.
    destruct (IH rest l' r' _ r E' H) as [ls [t [Hs [Hall [Hc Hr]]]]].
    exists (line :: ls), t. split; [econstructor; eassumption|].
    split; [constructor; assumption|]. split; assumption.
  - destruct acc as [[bf af] hd]. inversion H; subst.
    exists [], s. split; [constructor|]. split; [constructor|].
    rewrite E. split; [exact C|].
    simpl. rewrite (readline_app _ _ _ E). reflexivity.
Qed.

Lemma splits_unique : forall s ls1 t1 ls2 t2,
  splits s ls1 t1 -> Forall (fun l => cond l = true) ls1 -> cond (fst (readline t1)) = false ->
  splits s ls2 t2 -> Forall (fun l => cond l = true) ls2 -> cond (fst (readline t2)) = false ->
  ls1 = ls2 /\ t1 = t2.
Proof.
  intros s ls1 t1 ls2 t2 H1. revert ls2 t2.
  induction H1 as [s|s l s' ls t E Hs IH]; intros ls2 t2 A1 C1 H2 A2 C2;
    inversion H2 as [s0|s0 l2 s2 ls2' t2' E2 Hs2]; subst.
  - auto.
  - inversion A2 as [|? ? Hl _]; subst. rewrite E2 in C1. simpl in C1. congruence.
  - inversion A1 as [|? ? Hl _]; subst. rewrite E in C2. simpl in C2. congruence.
  - rewrite E in E2. inversion E2; subst.
    inversion A1; inversion A2; subst.
    destruct (IH ls2' t2 ltac:(assumption) C1 Hs2 ltac:(assumption) C2) as [-> ->].
    auto.
Qed.

Lemma classify_all_spec : forall ls bf af hd,
  classify_all prefix keep_before keep_after ls (bf, af, hd) =
  (bf ++ concat (filter (fun l => any_startswith l keep_before) ls),
   af ++ concat (filter (fun l => negb (any_startswith l keep_before) &&
                                  any_startswith l keep_after) ls),
   hd ++ map (fun l => strip (skipn (List.length prefix) l))
             (filter (fun l => negb (any_startswith l keep_before) &&
                               negb (any_startswith l keep_after)) ls)).
Proof.
  induction ls as [|l ls IH]; intros bf af hd.
  - simpl. rewrite !app_nil_r. reflexivity.
  - change (classify_all prefix keep_before keep_after (l :: ls) (bf, af, hd)) with
      (classify_all prefix keep_before keep_after ls
         (classify prefix keep_before keep_after l (bf, af, hd))).
    unfold classify. simpl filter.
    destruct (any_startswith l keep_before); destruct (any_startswith l keep_after);
      simpl; rewrite IH; rewrite <- ?app_assoc; reflexivity.
Qed.

End Loop.

Lemma region_of_scan : forall n f prefix keep_before keep_after,
  region_of n f prefix keep_before keep_after =
  scan n prefix keep_before keep_after (fst (readline f)) (snd (readline f)) ([], [], []).
Proof.
  intros. unfold region_of. destruct (readline f); reflexivity.
Qed.

Lemma fix_file_some_region : forall f header_lines prefix keep_before keep_after res,
  fix_file f header_lines prefix keep_before keep_after = Some res ->
  exists r, region_of (S (List.length f)) f prefix keep_before keep_after = Some r.
Proof.
  intros f header_lines prefix keep_before keep_after res H.
  unfold fix_file, fix_file_fuel, region_of in *.
  destruct (readline f) as [line rest]. cbn -[scan] in *.
  destruct (scan _ _ _ _ line rest _); [eauto|discriminate].
Qed.

(** The region of [fix_file] through a decomposition of the stream. *)
Lemma fix_file_region_splits : forall f header_lines prefix keep_before keep_after res r,
  fix_file f header_lines prefix keep_before keep_after = Some res ->
  region_of (S (List.length f)) f prefix keep_before keep_after = Some r ->
  exists ls t, splits f ls t /\
    Forall (fun l => loop_cond prefix keep_before l = true) ls /\
    loop_cond prefix keep_before (fst (readline t)) = false /\
    r = region_with (classify_all prefix keep_before keep_after ls ([], [], [])) t.
Proof.
  intros f header_lines prefix keep_before keep_after res r _ Hr.
  unfold region_of in Hr. destruct (readline f) as [line rest] eqn:E.
  eapply scan_inv; eassumption.
Qed.

Lemma splits_from_nil : forall ls t, splits [] ls t -> t = [].
Proof.
  intros ls t H. remember [] as s eqn:Es. revert Es.
  induction H as [s|s l s' ls t E _ IH]; intros ->; [reflexivity|].
  simpl in E. inversion E; subst. apply IH. reflexivity.
Qed.

Lemma splits_empty_line : forall s ls t, splits s ls t -> In [] ls -> t = [].
Proof.
  induction 1 as [s|s l s' ls t E Hs IH]; intros Hin; [destruct Hin|].
  destruct Hin as [Hl|Hin]; [subst l|apply IH; exact Hin].
  apply readline_nil in E as [_ ->]. apply splits_from_nil with ls. exact Hs.
Qed.

(** A line consumed by the loop is not empty once the loop has exited. *)
Lemma splits_line_nonempty : forall prefix keep_before s ls t l,
  splits s ls t ->
  Forall (fun x => loop_cond prefix keep_before x = true) ls ->
  loop_cond prefix keep_before (fst (readline t)) = false ->
  In l ls -> l <> [].
Proof.
  intros prefix keep_before s ls t l Hs A C Hin ->.
  rewrite (splits_empty_line _ _ _ Hs Hin) in C. simpl in C.
  rewrite Forall_forall in A. rewrite (A [] Hin) in C. discriminate.
Qed.

(** ** Lemmas for running [fix_file] on its own output *)

Lemma byte_eqb_neq : forall x y, x <> y -> Byte.eqb x y = false.
Proof.
  intros x y H. destruct (Byte.eqb x y) eqn:E; [|reflexivity].
  apply Byte.byte_dec_bl in E. contradiction.
Qed.

Lemma endswith_CRLF_In : forall l, endswith l [CR; LF] = true -> In CR l.
Proof.
  intros l H. unfold endswith in H. simpl in H. apply in_rev.
  destruct (rev l) as [|a [|c r]]; simpl in H;
    [discriminate|rewrite Bool.andb_false_r in H; discriminate|].
  apply Bool.andb_true_iff in H as [_ H]. apply Bool.andb_true_iff in H as [H _].
  apply Byte.byte_dec_bl in H. subst. right. left. reflexivity.
Qed.

Lemma no_CR_line_ending : forall s, ~ In CR s -> line_ending_of_file s = [LF].
Proof.
  intros s H. unfold line_ending_of_file, line_ending_of.
  destruct (readline s) as [l r] eqn:E. simpl.
  destruct (endswith l [CR; LF]) eqn:Ee; [|reflexivity].
  exfalso. apply H. apply readline_app in E. subst s.
  apply in_or_app. left. apply endswith_CRLF_In. exact Ee.
Qed.

Lemma readline_complete : forall l t, complete l -> readline (l ++ t) = (l, t).
Proof.
  intros l t [x [-> Hx]]. induction x as [|c x IH]; [reflexivity|].
  simpl. rewrite byte_eqb_neq by (intros ->; apply Hx; left; reflexivity).
  rewrite IH by (intros H; apply Hx; right; exact H). reflexivity.
Qed.

Lemma splits_complete : forall ls t, Forall complete ls -> splits (concat ls ++ t) ls t.
Proof.
  induction 1 as [|l ls Hl _ IH]; simpl; [constructor|].
  econstructor; [|exact IH]. rewrite <- app_assoc. apply readline_complete. exact Hl.
Qed.

Lemma splits_concat : forall s ls t, splits s ls t -> s = concat ls ++ t.
Proof.
  induction 1 as [s|s l s' ls t E _ IH]; [reflexivity|].
  simpl. rewrite <- app_assoc, <- IH. symmetry. apply readline_app. exact E.
Qed.

Lemma readline_shape : forall s l r,
  readline s = (l, r) -> complete l \/ (~ In LF l /\ r = []).
Proof.
  induction s as [|c s IH]; simpl; intros l r H.
  - inversion H; subst. right. split; [intros []|reflexivity].
  - destruct (Byte.eqb c LF) eqn:Ec.
    + apply Byte.byte_dec_bl in Ec. inversion H; subst.
      left. exists []. split; [reflexivity|intros []].
    + destruct (readline s) as [l' r'] eqn:E. inversion H; subst.
      assert (Hc : c <> LF) by (intros ->; discriminate).
      destruct (IH l' r eq_refl) as [[x [-> Hx]]|[Hl ->]].
      * left. exists (c :: x). split; [reflexivity|].
        intros [H1|H1]; [congruence|contradiction].
      * right. split; [|reflexivity]. intros [H1|H1]; [congruence|contradiction].
Qed.

Definition ends_in_LF (s : bytes) : Prop := s = [] \/ exists x, s = x ++ [LF].

Lemma splits_complete_lines : forall s ls t,
  splits s ls t -> ends_in_LF s -> Forall (fun l => l <> []) ls -> Forall complete ls.
Proof.
  induction 1 as [s|s l s' ls t E Hs IH]; intros Hend Hne; [constructor|].
  inversion Hne as [|? ? Hl Hls]; subst.
  pose proof (readline_app _ _ _ E) as Es.
  destruct (readline_shape _ _ _ E) as [Hc|[Hn ->]].
  - constructor; [exact Hc|]. apply IH; [|exact Hls].
    destruct s' as [|a s'']; [left; reflexivity|right].
    destruct Hend as [->|[x Hx]]; [destruct l; discriminate|].
    destruct (exists_last (l := a :: s'') ltac:(discriminate)) as [y [z Ey]].
    rewrite Ey in Es. rewrite <- Es in Hx. rewrite app_assoc in Hx.
    apply app_inj_tail in Hx as [_ ->]. exists y. exact Ey.
  - exfalso. rewrite app_nil_r in Es. subst s.
    destruct Hend as [->|[x ->]]; [contradiction|].
    apply Hn. apply in_or_app. right. left. reflexivity.
Qed.

Lemma loop_cond_nonempty : forall prefix keep_before l,
  prefix <> [] -> Forall (fun k => k <> []) keep_before ->
  loop_cond prefix keep_before l = true -> l <> [].
Proof.
  intros prefix keep_before l Hp Hk H ->.
  rewrite loop_cond_nil in H by assumption. discriminate.
Qed.

Lemma lstrip_app : forall x y, lstrip x <> [] -> lstrip (x ++ y) = lstrip x ++ y.
Proof.
  induction x as [|c x IH]; intros y H; [contradiction|].
  simpl in *. destruct (isspace c); [apply IH; exact H|reflexivity].
Qed.

Lemma strip_snoc_LF : forall h, strip h = h -> strip (h ++ [LF]) = h.
Proof.
  intros h H. unfold strip in *.
  destruct (lstrip h) as [|c l] eqn:E.
  - unfold rstrip in H. simpl in H. subst h. reflexivity.
  - rewrite lstrip_app by (rewrite E; discriminate). rewrite E.
    unfold rstrip in *. rewrite rev_app_distr. simpl. exact H.
Qed.

Lemma startswith_LF_line : forall k,
  k <> [] -> hd_error k <> Some LF -> startswith [LF] k = false.
Proof.
  intros [|c k] H1 H2; [contradiction|]. simpl.
  rewrite byte_eqb_neq; [reflexivity|]. intros E. apply H2. rewrite E. reflexivity.
Qed.

Lemma filter_all_true : forall (g : bytes -> bool) l,
  Forall (fun x => g x = true) l -> filter g l = l.
Proof. induction 1; simpl; [reflexivity|]. rewrite H. f_equal. assumption. Qed.

Lemma filter_all_false : forall (g : bytes -> bool) l,
  Forall (fun x => g x = false) l -> filter g l = [].
Proof. induction 1; simpl; [reflexivity|]. rewrite H. assumption. Qed.

Lemma Forall_filter_keep : forall (P : bytes -> Prop) (g : bytes -> bool) l,
  Forall P l -> Forall P (filter g l).
Proof.
  intros P g l H. apply Forall_forall. intros x Hx.
  apply filter_In in Hx as [Hx _]. rewrite Forall_forall in H. auto.
Qed.

Lemma Forall_filter_true : forall (g : bytes -> bool) l,
  Forall (fun x => g x = true) (filter g l).
Proof.
  intros g l. apply Forall_forall. intros x Hx. apply filter_In in Hx. tauto.
Qed.

Lemma in_concat_filter : forall (g : bytes -> bool) ls c,
  In c (concat (filter g ls)) -> In c (concat ls).
Proof.
  intros g ls c H. apply in_concat in H as [l [Hl Hc]].
  apply filter_In in Hl as [Hl _]. apply in_concat. eauto.
Qed.

Lemma fix_file_region_exists : forall f prefix keep_before keep_after,
  prefix <> [] -> Forall (fun k => k <> []) keep_before ->
  exists r, region_of (S (List.length f)) f prefix keep_before keep_after = Some r.
Proof.
  intros f prefix keep_before keep_after Hp Hk. unfold region_of.
  destruct (readline f) as [line rest] eqn:E.
  apply scan_some; [assumption|assumption| |].
  - apply readline_length in E. lia.
  - intros ->. apply readline_nil in E. tauto.
Qed.

Lemma region_of_splits : forall n f prefix keep_before keep_after r,
  region_of n f prefix keep_before keep_after = Some r ->
  exists ls t, splits f ls t /\
    Forall (fun l => loop_cond prefix keep_before l = true) ls /\
    loop_cond prefix keep_before (fst (readline t)) = false /\
    r = region_with (classify_all prefix keep_before keep_after ls ([], [], [])) t.
Proof.
  intros n f prefix keep_before keep_after r Hr.
  unfold region_of in Hr. destruct (readline f) as [line rest] eqn:E.
  eapply scan_inv; eassumption.
Qed.

(** What the rewrite branch writes after the header block, for the line
    ending [b"\n"]: it holds no carriage return and is empty or starts with
    a newline. *)
Lemma rewrite_tail_facts : forall a t,
  ~ In CR a -> ~ In CR t ->
  ~ In CR ((if Nat.ltb 0 (List.length a) then [LF] ++ a else [])
           ++ (if Nat.ltb 0 (List.length t) && negb (startswith t [LF]) then [LF] else [])
           ++ t) /\
  (((if Nat.ltb 0 (List.length a) then [LF] ++ a else [])
    ++ (if Nat.ltb 0 (List.length t) && negb (startswith t [LF]) then [LF] else [])
    ++ t) = [] \/
   exists y, ((if Nat.ltb 0 (List.length a) then [LF] ++ a else [])
             ++ (if Nat.ltb 0 (List.length t) && negb (startswith t [LF]) then [LF] else [])
             ++ t) = LF :: y).
Proof.
  intros a t Ha Ht.
  assert (HCL : CR <> LF) by discriminate.
  destruct a as [|x a'].
  - destruct t as [|y t']; simpl.
    + split; [intros []|left; reflexivity].
    + destruct (Byte.eqb y LF) eqn:E; simpl.
      * apply Byte.byte_dec_bl in E. subst y.
        replace (startswith t' []) with true by (destruct t'; reflexivity). simpl.
        split; [exact Ht|right; eauto].
      * split; [|right; eauto]. intros [H|H]; [congruence|contradiction].
  - simpl. split; [|right; eauto].
    intros [H|H]; [congruence|].
    destruct H as [H|H]; [apply Ha; left; exact H|].
    apply in_app_or in H as [H|H]; [apply Ha; right; exact H|].
    apply in_app_or in H as [H|H]; [|contradiction].
    destruct (_ && _); [destruct H as [H|[]]; congruence|destruct H].
Qed.

Lemma map_id_Forall : forall (g : bytes -> bytes) l,
  Forall (fun x => g x = x) l -> map g l = l.
Proof. induction 1; simpl; [reflexivity|]. f_equal; assumption. Qed.

Ltac not_in := let H := fresh in intros H; simpl in H; intuition discriminate.

Lemma fix_file_status : forall f header_lines prefix keep_before keep_after st out,
  fix_file f header_lines prefix keep_before keep_after = Some (st, out) ->
  (st = 0 /\ out = f) \/ st = 1.
Proof.
  intros f header_lines prefix keep_before keep_after st out H.
  destruct (fix_file_some_region _ _ _ _ _ _ H) as [r Hr].
  rewrite (fix_file_region _ header_lines _ _ _ _ Hr) in H.
  destruct (header_ok _ _ r); inversion H; auto.
Qed.

Definition update_message (filename : string) : string :=
  String.append "Updated license header in " filename.

Lemma main_loop_exit : forall names comment_prefix header_lines keep_before keep_after
    fs rv out code out' fs',
  main_loop comment_prefix header_lines keep_before keep_after names fs rv out =
    mkRun (Exited code) out' fs' ->
  (rv = 0 \/ rv = 1) -> (rv = 0 <-> out = []) ->
  (code = 0 \/ code = 1) /\ (code = 0 <-> out' = []) /\
  (code = 0 -> forall n, fs' n = fs n) /\
  exists more, out' = out ++ more /\
    Forall (fun m => exists n, In n names /\ m = update_message n) more.
Proof.
  induction names as [|name names IH];
    intros comment_prefix header_lines keep_before keep_after fs rv out code out' fs' H Hrv Hout.
  - simpl in H. inversion H; subst. split; [exact Hrv|]. split; [exact Hout|].
    split; [reflexivity|]. exists []. rewrite app_nil_r. auto.
  - cbn [main_loop] in H.
    destruct (match comment_prefix with
              | Some p => Some p
              | None => map_get file_type_comment_map (extension_of name)
              end) as [prefix|]; [|discriminate].
    destruct (fs name) as [content|] eqn:Efs; [|discriminate].
    destruct (fix_file content header_lines (b prefix ++ [x20]) keep_before keep_after)
      as [[status content']|] eqn:Ef; [|discriminate].
    destruct (fix_file_status _ _ _ _ _ _ _ Ef) as [[-> ->]| ->].
    + rewrite (Nat.lor_0_r rv) in H. simpl in H.
      destruct (IH _ _ _ _ _ _ _ _ _ _ H Hrv Hout) as [Hc [Hco [Hfs [more [Em Hm]]]]].
      split; [exact Hc|]. split; [exact Hco|]. split.
      * intros Hc0 n. rewrite (Hfs Hc0 n). unfold fs_update.
        destruct (String.eqb n name) eqn:En; [|reflexivity].
        apply String.eqb_eq in En. subst n. symmetry. exact Efs.
      * exists more. split; [exact Em|].
        eapply Forall_impl; [|exact Hm]. intros m [n [Hn Hmn]]. exists n. split; [right|]; assumption.
    + simpl in H.
      assert (Hrv1 : Nat.lor rv 1 = 1) by (destruct Hrv as [-> | ->]; reflexivity).
      rewrite Hrv1 in H.
      assert (Hne : out ++ [update_message name] <> []).
      { intros E. apply app_eq_nil in E as [_ E]. discriminate. }
      assert (Hiff : 1 = 0 <-> out ++ [update_message name] = []).
      { split; [discriminate | intros E; contradiction]. }
      destruct (IH _ _ _ _ _ _ _ _ _ _ H (or_intror eq_refl) Hiff)
        as [Hc [Hco [Hfs [more [Em Hm]]]]].
      assert (Hc1 : code <> 0).
      { intros ->. destruct Hco as [Hco _]. specialize (Hco eq_refl).
        rewrite Em, <- app_assoc in Hco. apply app_eq_nil in Hco as [_ E]. discriminate. }
      split; [exact Hc|]. split; [split; [intros ->; contradiction|intros E]|].
      * rewrite Em, <- app_assoc in E. apply app_eq_nil in E as [_ E]. discriminate.
      * split; [intros ->; contradiction|].
        exists (update_message name :: more). split; [rewrite Em, <- app_assoc; reflexivity|].
        constructor; [exists name; split; [left|]; reflexivity|].
        eapply Forall_impl; [|exact Hm]. intros m [n [Hn Hmn]]. exists n. split; [right|]; assumption.
Qed.

Lemma main_loop_out_prefix : forall names comment_prefix header_lines keep_before keep_after
    fs rv out,
  exists more,
    stdout (main_loop comment_prefix header_lines keep_before keep_after names fs rv out) =
    out ++ more.
Proof.
  induction names as [|name names IH];
    intros comment_prefix header_lines keep_before keep_after fs rv out; cbn [main_loop].
  - exists []. rewrite app_nil_r. reflexivity.
  - destruct (match comment_prefix with
              | Some p => Some p
              | None => map_get file_type_comment_map (extension_of name)
              end) as [prefix|];
      [|exists []; rewrite app_nil_r; reflexivity].
    destruct (fs name) as [content|]; [|exists []; rewrite app_nil_r; reflexivity].
    destruct (fix_file content header_lines (b prefix ++ [x20]) keep_before keep_after)
      as [[status content']|]; [|exists []; rewrite app_nil_r; reflexivity].
    destruct (IH comment_prefix header_lines keep_before keep_after
                (fs_update fs name content') (Nat.lor rv status)
                (if Nat.eqb status 0 then out
                 else out ++ [String.append "Updated license header in " name]))
      as [more E].
    rewrite E. destruct (Nat.eqb status 0).
    + exists more. reflexivity.
    + exists (String.append "Updated license header in " name :: more).
      rewrite <- app_assoc. reflexivity.
Qed.

Lemma main_loop_changed : forall names comment_prefix header_lines keep_before keep_after
    fs rv out code out' fs' n,
  main_loop comment_prefix header_lines keep_before keep_after names fs rv out =
    mkRun (Exited code) out' fs' ->
  fs' n <> fs n -> In (update_message n) out'.
Proof.
  induction names as [|name names IH];
    intros comment_prefix header_lines keep_before keep_after fs rv out code out' fs' n H Hn.
  - simpl in H. inversion H; subst. contradiction.
  - cbn [main_loop] in H.
    destruct (match comment_prefix with
              | Some p => Some p
              | None => map_get file_type_comment_map (extension_of name)
              end) as [prefix|]; [|discriminate].
    destruct (fs name) as [content|] eqn:Efs; [|discriminate].
    destruct (fix_file content header_lines (b prefix ++ [x20]) keep_before keep_after)
      as [[status content']|] eqn:Ef; [|discriminate].
    destruct (String.eqb n name) eqn:En.
    + apply String.eqb_eq in En. subst n.
      destruct (fix_file_status _ _ _ _ _ _ _ Ef) as [[-> ->]| ->].
      * apply (IH _ _ _ _ _ _ _ _ _ _ _ H). unfold fs_update.
        rewrite String.eqb_refl. rewrite Efs in Hn. exact Hn.
      * pose proof (main_loop_out_prefix names comment_prefix header_lines keep_before
                      keep_after (fs_update fs name content') (Nat.lor rv 1)
                      (out ++ [String.append "Updated license header in " name]))
          as [more E].
        cbn [Nat.eqb] in H. rewrite H in E. cbn [stdout] in E. rewrite E.
        apply in_or_app. left. apply in_or_app. right. left. reflexivity.
    + apply (IH _ _ _ _ _ _ _ _ _ _ _ H). unfold fs_update. rewrite En. exact Hn.
Qed.


(** ** Lemmas on the header builder, [strip] and the file loop *)

Lemma lstrip_nonspace : forall c t, isspace c = false -> lstrip (c :: t) = c :: t.
Proof. intros c t H. simpl. rewrite H. reflexivity. Qed.

Lemma strip_idem : forall s, strip (strip s) = strip s.
Proof.
  intros s. destruct (strip_spec s) as [u [v [_ [_ [_ [E|[[c [t [E1 H1]]] [t' [d [E2 H2]]]]]]]]]].
  - rewrite E. reflexivity.
  - rewrite E1 at 2. rewrite E1. unfold strip. rewrite lstrip_nonspace by exact H1.
    rewrite <- E1, E2. unfold rstrip. rewrite rev_app_distr. simpl.
    rewrite H2. simpl. rewrite rev_involutive. reflexivity.
Qed.

Lemma lstrip_app_nil : forall x z, lstrip x = [] -> lstrip (x ++ z) = lstrip z.
Proof.
  induction x as [|c x IH]; intros z H; [reflexivity|].
  simpl in *. destruct (isspace c); [apply IH; exact H|discriminate].
Qed.

Lemma strip_snoc_space : forall y c, isspace c = true -> strip (y ++ [c]) = strip y.
Proof.
  intros y c Hc. unfold strip.
  destruct (lstrip y) as [|a w] eqn:E.
  - rewrite lstrip_app_nil by exact E. simpl. rewrite Hc. reflexivity.
  - rewrite lstrip_app by (rewrite E; discriminate). rewrite E.
    unfold rstrip. rewrite rev_app_distr. simpl. rewrite Hc. reflexivity.
Qed.

Lemma In_strip : forall x s, In x (strip s) -> In x s.
Proof.
  intros x s H. destruct (strip_spec s) as [u [v [E _]]]. rewrite E.
  apply in_or_app. right. apply in_or_app. left. exact H.
Qed.

Lemma In_skipn : forall (x : byte) k l, In x (skipn k l) -> In x l.
Proof.
  intros x k l H. rewrite <- (firstn_skipn k l). apply in_or_app. right. exact H.
Qed.

Lemma line_strip_noLF : forall k l,
  complete l \/ ~ In LF l -> ~ In LF (strip (skipn k l)).
Proof.
  intros k l [[x [-> Hx]]|Hl] H.
  - rewrite skipn_app in H.
    destruct (k - List.length x) as [|m].
    + simpl in H. rewrite strip_snoc_space in H by reflexivity.
      apply Hx. apply In_skipn with k. apply In_strip. exact H.
    + destruct m; simpl in H; rewrite app_nil_r in H;
      apply Hx; apply In_skipn with k; apply In_strip; exact H.
  - apply Hl. apply In_skipn with k. apply In_strip. exact H.
Qed.

Lemma splits_shape : forall s ls t,
  splits s ls t -> Forall (fun l => complete l \/ ~ In LF l) ls.
Proof.
  induction 1 as [s|s l s' ls t E _ IH]; constructor; [|exact IH].
  destruct (readline_shape _ _ _ E) as [H|[H _]]; auto.
Qed.

Lemma region_header_clean : forall n f prefix keep_before keep_after r,
  region_of n f prefix keep_before keep_after = Some r ->
  Forall (fun h => strip h = h /\ ~ In LF h) (file_header r).
Proof.
  intros n f prefix keep_before keep_after r Hr.
  destruct (region_of_splits _ _ _ _ _ _ Hr) as [ls [t [Hs [_ [_ Er]]]]].
  rewrite classify_all_spec in Er. subst r. simpl.
  apply Forall_map. apply Forall_filter_keep.
  eapply Forall_impl; [|exact (splits_shape _ _ _ Hs)].
  intros l Hl. split; [apply strip_idem|apply line_strip_noLF; exact Hl].
Qed.

Lemma scan_keep_empty : forall prefix keep_before keep_after,
  In [] keep_before ->
  forall n line rest acc, scan n prefix keep_before keep_after line rest acc = None.
Proof.
  intros prefix keep_before keep_after Hin n.
  induction n as [|n IH]; intros line rest acc; [reflexivity|].
  simpl. replace (loop_cond prefix keep_before line) with true.
  - destruct (readline rest) as [l' r']. apply IH.
  - symmetry. unfold loop_cond, any_startswith. apply Bool.orb_true_iff. right.
    apply existsb_exists. exists []. split; [exact Hin|destruct line; reflexivity].
Qed.

Lemma fix_file_fuel_keep_empty : forall n f header_lines prefix keep_before keep_after,
  In [] keep_before -> fix_file_fuel n f header_lines prefix keep_before keep_after = None.
Proof.
  intros n f header_lines prefix keep_before keep_after Hin.
  unfold fix_file_fuel. destruct (readline f) as [line rest].
  rewrite scan_keep_empty by exact Hin. reflexivity.
Qed.

Lemma fix_file_no_leading : forall f header_lines prefix keep_before keep_after,
  loop_cond prefix keep_before (fst (readline f)) = false ->
  fix_file f header_lines prefix keep_before keep_after =
  if lines_eqb [] header_lines &&
     (bytes_eqb f [] || startswith f (line_ending_of_file f))
  then Some (0, f)
  else Some (1, concat (map (header_line prefix (line_ending_of_file f)) header_lines)
                ++ (if Nat.ltb 0 (List.length f) &&
                       negb (startswith f (line_ending_of_file f))
                    then line_ending_of_file f else [])
                ++ f).
Proof.
  intros f header_lines prefix keep_before keep_after C.
  unfold fix_file, fix_file_fuel, line_ending_of_file.
  destruct (readline f) as [line rest] eqn:E. simpl in C |- *. rewrite C.
  rewrite (readline_app _ _ _ E). reflexivity.
Qed.

Lemma fix_file_written_header : forall old new p kb ka body,
  p <> [] -> ~ In LF p -> ~ In CR p ->
  Forall (fun k => k <> []) kb ->
  Forall (fun h => strip h = h /\ ~ In LF h /\ ~ In CR h /\
                   any_startswith (p ++ h ++ [LF]) kb = false /\
                   any_startswith (p ++ h ++ [LF]) ka = false) old ->
  old <> [] ->
  loop_cond p kb (fst (readline body)) = false ->
  fix_file (concat (map (header_line p [LF]) old) ++ body) new p kb ka =
  if lines_eqb old new && (bytes_eqb body [] || startswith body [LF])
  then Some (0, concat (map (header_line p [LF]) old) ++ body)
  else Some (1, concat (map (header_line p [LF]) new)
                ++ (if Nat.ltb 0 (List.length body) && negb (startswith body [LF])
                    then [LF] else [])
                ++ body).
Proof.
  intros old new p kb ka body Hp HpLF HpCR Hk Hh Hne C.
  set (ls := map (header_line p [LF]) old).
  assert (Hc : Forall complete ls).
  { apply Forall_map. eapply Forall_impl; [|exact Hh].
    intros h [_ [HhLF _]]. exists (p ++ h). split.
    - unfold header_line. rewrite app_assoc. reflexivity.
    - intros Hin. apply in_app_or in Hin as [Hin|Hin]; contradiction. }
  assert (Hs : splits (concat ls ++ body) ls body) by (apply splits_complete; exact Hc).
  assert (A : Forall (fun l => loop_cond p kb l = true) ls).
  { apply Forall_map. apply Forall_forall. intros h _.
    unfold loop_cond, header_line. rewrite startswith_app. reflexivity. }
  destruct (fix_file_region_exists (concat ls ++ body) p kb ka Hp Hk) as [r Hr].
  destruct (region_of_splits _ _ _ _ _ _ Hr) as [ls' [t' [Hs' [A' [C' Er]]]]].
  destruct (splits_unique p kb _ _ _ _ _ Hs A C Hs' A' C') as [<- <-].
  rewrite (fix_file_region _ new _ _ _ _ Hr).
  assert (Hle : line_ending_of_file (concat ls ++ body) = [LF]).
  { unfold ls. destruct old as [|h0 old']; [contradiction|].
    inversion Hc as [|? ? Hc0 _]; subst.
    cbn [map concat]. rewrite <- app_assoc. unfold line_ending_of_file.
    rewrite readline_complete by exact Hc0. unfold line_ending_of. cbn [fst].
    destruct (endswith (header_line p [LF] h0) [CR; LF]) eqn:Ee; [|reflexivity].
    exfalso. apply endswith_CRLF_In in Ee. unfold header_line in Ee.
    inversion Hh as [|? ? [_ [_ [HhCR _]]] _]; subst.
    apply in_app_or in Ee as [Ee|Ee]; [contradiction|].
    apply in_app_or in Ee as [Ee|[Ee|[]]]; [contradiction|discriminate]. }
  rewrite Hle.
  assert (Er2 : r = mkRegion [] [] old body).
  { rewrite Er, classify_all_spec. simpl.
    rewrite (filter_all_false _ ls).
    2:{ apply Forall_map. eapply Forall_impl; [|exact Hh].
        intros h [_ [_ [_ [Hb _]]]]. unfold header_line. exact Hb. }
    rewrite (filter_all_false _ ls).
    2:{ apply Forall_map. eapply Forall_impl; [|exact Hh].
        intros h [_ [_ [_ [Hb Ha]]]]. unfold header_line. rewrite Hb, Ha. reflexivity. }
    rewrite (filter_all_true _ ls).
    2:{ apply Forall_map. eapply Forall_impl; [|exact Hh].
        intros h [_ [_ [_ [Hb Ha]]]]. unfold header_line. rewrite Hb, Ha. reflexivity. }
    unfold ls. rewrite map_map. rewrite map_id_Forall.
    - reflexivity.
    - eapply Forall_impl; [|exact Hh].
      intros h [Hs0 _]. unfold header_line. rewrite skipn_length_app.
      apply strip_snoc_LF. exact Hs0. }
  rewrite Er2. reflexivity.
Qed.

Lemma main_loop_unlisted : forall names comment_prefix header_lines keep_before keep_after
    fs rv out n,
  ~ In n names ->
  files (main_loop comment_prefix header_lines keep_before keep_after names fs rv out) n = fs n.
Proof.
  induction names as [|name names IH];
    intros comment_prefix header_lines keep_before keep_after fs rv out n Hn;
    cbn [main_loop]; [reflexivity|].
  destruct (match comment_prefix with
            | Some p => Some p
            | None => map_get file_type_comment_map (extension_of name)
            end) as [prefix|]; [|reflexivity].
  destruct (fs name) as [content|]; [|reflexivity].
  destruct (fix_file content header_lines (b prefix ++ [x20]) keep_before keep_after)
    as [[status content']|]; [|reflexivity].
  rewrite IH by (intros H; apply Hn; right; exact H).
  unfold fs_update. destruct (String.eqb n name) eqn:E; [|reflexivity].
  apply String.eqb_eq in E. subst n. exfalso. apply Hn. left. reflexivity.
Qed.

Lemma main_loop_unknown_extension : forall names header_lines keep_before keep_after
    fs rv out n code,
  In n names -> map_get file_type_comment_map (extension_of n) = None ->
  outcome_of (main_loop None header_lines keep_before keep_after names fs rv out)
    <> Exited code.
Proof.
  induction names as [|name names IH];
    intros header_lines keep_before keep_after fs rv out n code Hin Hn; [destruct Hin|].
  cbn [main_loop].
  destruct Hin as [<-|Hin].
  - rewrite Hn. discriminate.
  - destruct (map_get file_type_comment_map (extension_of name)) as [prefix|];
      [|discriminate].
    destruct (fs name) as [content|]; [|discriminate].
    destruct (fix_file content header_lines (b prefix ++ [x20]) keep_before keep_after)
      as [[status content']|]; [|discriminate].
    exact (IH _ _ _ _ _ _ _ _ Hin Hn).
Qed.

Lemma main_loop_keep_empty : forall names comment_prefix header_lines keep_before keep_after
    fs rv out code,
  In [] keep_before -> names <> [] ->
  outcome_of (main_loop comment_prefix header_lines keep_before keep_after names fs rv out)
    <> Exited code.
Proof.
  intros [|name names] comment_prefix header_lines keep_before keep_after fs rv out code
    Hin Hne; [contradiction|].
  cbn [main_loop].
  destruct (match comment_prefix with
            | Some p => Some p
            | None => map_get file_type_comment_map (extension_of name)
            end) as [prefix|]; [|discriminate].
  destruct (fs name) as [content|]; [|discriminate].
  unfold fix_file. rewrite fix_file_fuel_keep_empty by exact Hin. discriminate.
Qed.

Lemma skip_lines_splits : forall n s ls,
  splits s ls [] -> splits (skip_lines n s) (skipn n ls) [].
Proof.
  induction n as [|n IH]; intros s ls Hs; [exact Hs|].
  inversion Hs as [s0 E1 E2|s0 l s' ls' t E Hs' E1 E2 E3]; subst.
  - simpl. pose proof (IH [] [] (splits_nil [])) as H. destruct n; exact H.
  - simpl. rewrite E. simpl. apply IH. exact Hs'.
Qed.

Lemma read_stripped_splits : forall n s ls,
  splits s ls [] ->
  read_stripped n s = map strip (firstn n ls) ++ repeat [] (n - List.length ls).
Proof.
  induction n as [|n IH]; intros s ls Hs; [reflexivity|].
  inversion Hs as [s0 E1 E2|s0 l s' ls' t E Hs' E1 E2 E3]; subst.
  - simpl. rewrite (IH [] []) by constructor. rewrite firstn_nil. simpl. rewrite Nat.sub_0_r. reflexivity.
  - simpl. rewrite E. rewrite (IH s' ls' Hs'). reflexivity.
Qed.

Lemma read_stripped_clean : forall n s,
  List.length (read_stripped n s) = n /\
  Forall (fun h => strip h = h /\ ~ In LF h) (read_stripped n s).
Proof.
  induction n as [|n IH]; intros s; [split; [reflexivity|constructor]|].
  simpl. destruct (readline s) as [l r] eqn:E.
  destruct (IH r) as [IH1 IH2]. split; [simpl; rewrite IH1; reflexivity|].
  constructor; [|exact IH2]. split; [apply strip_idem|].
  apply (line_strip_noLF 0 l).
  destruct (readline_shape _ _ _ E) as [H|[H _]]; auto.
Qed.

Lemma lines_eqb_nil_cons : forall h t, lines_eqb [] (h :: t) = false.
Proof. intros h t. unfold lines_eqb. destruct (list_eq_dec _ _ _); [discriminate|reflexivity]. Qed.

Lemma lines_eqb_nil_nil : lines_eqb [] [] = true.
Proof. unfold lines_eqb. destruct (list_eq_dec _ _ _); [reflexivity|contradiction]. Qed.

Lemma has_dot_app_dot : forall s e, has_dot (String.append s (String "." e)) = true.
Proof. induction s as [|c s IH]; intros e; simpl; [reflexivity|rewrite IH; apply orb_true_r]. Qed.


Lemma line_ending_shape : forall f,
  line_ending_of_file f = [LF] \/ line_ending_of_file f = [CR; LF].
Proof.
  intros f. unfold line_ending_of_file, line_ending_of.
  destruct (endswith _ _); auto.
Qed.

Lemma line_ending_of_self : forall le,
  le = [LF] \/ le = [CR; LF] -> line_ending_of le = le.
Proof. intros le [->| ->]; reflexivity. Qed.

Lemma complete_app_le : forall x le,
  ~ In LF x -> le = [LF] \/ le = [CR; LF] -> complete (x ++ le).
Proof.
  intros x le Hx [->| ->].
  - exists x. split; [reflexivity|exact Hx].
  - exists (x ++ [CR]). split; [rewrite <- app_assoc; reflexivity|].
    intros H. apply in_app_or in H as [H|[H|[]]]; [contradiction|discriminate].
Qed.

Lemma strip_app_le : forall h le,
  strip h = h -> le = [LF] \/ le = [CR; LF] -> strip (h ++ le) = h.
Proof.
  intros h le Hh [->| ->].
  - rewrite strip_snoc_space by reflexivity. exact Hh.
  - replace (h ++ [CR; LF]) with ((h ++ [CR]) ++ [LF]) by (rewrite <- app_assoc; reflexivity).
    rewrite !strip_snoc_space by reflexivity. exact Hh.
Qed.

Lemma endswith_LF_complete : forall l,
  complete l \/ ~ In LF l -> endswith l [LF] = true -> complete l.
Proof.
  intros l [H|H] E; [exact H|]. exfalso. apply H. apply in_rev.
  unfold endswith in E. simpl in E. destruct (rev l) as [|c r]; [discriminate|].
  simpl in E. apply Bool.andb_true_iff in E as [E _]. apply Byte.byte_dec_bl in E. subst c.
  left. reflexivity.
Qed.

Lemma fix_file_prefix_nonempty : forall f header_lines prefix keep_before keep_after res,
  fix_file f header_lines prefix keep_before keep_after = Some res -> prefix <> [].
Proof.
  intros f header_lines prefix keep_before keep_after res H ->.
  unfold fix_file, fix_file_fuel in H. destruct (readline f) as [line rest].
  rewrite scan_empty_prefix in H. discriminate.
Qed.

Lemma fix_file_keep_nonempty : forall f header_lines prefix keep_before keep_after res,
  fix_file f header_lines prefix keep_before keep_after = Some res ->
  Forall (fun k => k <> []) keep_before.
Proof.
  intros f header_lines prefix keep_before keep_after res H.
  apply Forall_forall. intros k Hin ->. unfold fix_file in H.
  rewrite fix_file_fuel_keep_empty in H by exact Hin. discriminate.
Qed.

Lemma tail_shape : forall le a t,
  le = [LF] \/ le = [CR; LF] ->
  (if Nat.ltb 0 (List.length a) then le ++ a else [])
  ++ (if Nat.ltb 0 (List.length t) && negb (startswith t le) then le else []) ++ t = []
  \/ exists y,
  (if Nat.ltb 0 (List.length a) then le ++ a else [])
  ++ (if Nat.ltb 0 (List.length t) && negb (startswith t le) then le else []) ++ t = le ++ y.
Proof.
  intros le a t Hle. destruct a as [|c a].
  - destruct t as [|d t]; [left; reflexivity|right].
    destruct (startswith (d :: t) le) eqn:E; simpl.
    + exists (skipn (List.length le) (d :: t)). apply startswith_skipn. exact E.
    + eexists. reflexivity.
  - right. simpl. eexists. rewrite <- app_assoc. reflexivity.
Qed.

Lemma line_ending_first_line : forall ls2 le y,
  Forall complete ls2 -> le = [LF] \/ le = [CR; LF] ->
  (forall l0 rest, ls2 = l0 :: rest -> line_ending_of l0 = le) ->
  line_ending_of_file (concat ls2 ++ le ++ y) = le.
Proof.
  intros [|l0 rest] le y Hc Hle Hf; unfold line_ending_of_file.
  - simpl. rewrite readline_complete by (apply (complete_app_le []); [intros []|exact Hle]).
    apply line_ending_of_self. exact Hle.
  - inversion Hc as [|? ? Hc0 _]; subst. simpl. rewrite <- app_assoc.
    rewrite readline_complete by exact Hc0. apply (Hf l0 rest). reflexivity.
Qed.

(** * Properties of [fix_file] and [main] *)

(** C1: once the loop has exited with region [r], [fix_file] returns 0 and
    leaves the bytes unchanged exactly when the observed header equals the
    canonical one and the remainder is empty or begins with the detected line
    ending; otherwise it returns 1. *)
Theorem fix_file_unmodified_iff : forall f header_lines prefix keep_before keep_after r st out,
  region_of (S (List.length f)) f prefix keep_before keep_after = Some r ->
  fix_file f header_lines prefix keep_before keep_after = Some (st, out) ->
  (st = 0 /\ out = f <->
   file_header r = header_lines /\
   (file_contents r = [] \/ startswith (file_contents r) (line_ending_of_file f) = true)).
Proof.
  intros f header_lines prefix keep_before keep_after r st out Hr Hf.
  rewrite (fix_file_region _ header_lines _ _ _ _ Hr) in Hf.
  rewrite <- header_ok_spec.
  destruct (header_ok header_lines (line_ending_of_file f) r); inversion Hf; subst.
  - tauto.
  - split; [intros [H _]; discriminate|intros H; discriminate].
Qed.

Lemma fix_file_unmodified_iff_witness :
  region_of 5 (b "# x" ++ [LF]) (b "# ") [] [] = Some (mkRegion [] [] [b "x"] []) /\
  fix_file (b "# x" ++ [LF]) [b "x"] (b "# ") [] [] = Some (0, b "# x" ++ [LF]) /\
  (0 = 0 /\ (b "# x" ++ [LF]) = (b "# x" ++ [LF]) <->
   file_header (mkRegion [] [] [b "x"] []) = [b "x"] /\
   (file_contents (mkRegion [] [] [b "x"] []) = [] \/
    startswith (file_contents (mkRegion [] [] [b "x"] [])) (line_ending_of_file (b "# x" ++ [LF])) = true)).
Proof.
  assert (Hr : region_of 5 (b "# x" ++ [LF]) (b "# ") [] [] = Some (mkRegion [] [] [b "x"] []))
    by reflexivity.
  assert (Hf : fix_file (b "# x" ++ [LF]) [b "x"] (b "# ") [] [] = Some (0, b "# x" ++ [LF]))
    by reflexivity.
  split; [exact Hr|]. split; [exact Hf|].
  exact (fix_file_unmodified_iff (b "# x" ++ [LF]) [b "x"] (b "# ") [] [] _ 0 (b "# x" ++ [LF]) Hr Hf).
Defined.

(** C2: when the match check fails, [fix_file] returns 1 and the stream
    holds [before], each canonical line as [prefix + line + line_ending],
    then (if [after] is non-empty) a line ending and [after], then (if the
    remainder is non-empty and does not start with the line ending) a line
    ending, then the remainder. *)
Theorem fix_file_rewrite_output : forall f header_lines prefix keep_before keep_after r,
  region_of (S (List.length f)) f prefix keep_before keep_after = Some r ->
  ~ (file_header r = header_lines /\
     (file_contents r = [] \/ startswith (file_contents r) (line_ending_of_file f) = true)) ->
  fix_file f header_lines prefix keep_before keep_after =
  Some (1,
    before r
    ++ concat (map (fun h => prefix ++ h ++ line_ending_of_file f) header_lines)
    ++ match after r with [] => [] | _ => line_ending_of_file f ++ after r end
    ++ match file_contents r with
       | [] => []
       | _ => if startswith (file_contents r) (line_ending_of_file f) then []
              else line_ending_of_file f
       end
    ++ file_contents r).
Proof.
  intros f header_lines prefix keep_before keep_after r Hr Hn.
  rewrite (fix_file_region _ header_lines _ _ _ _ Hr).
  rewrite <- header_ok_spec in Hn.
  destruct (header_ok header_lines (line_ending_of_file f) r); [contradiction Hn; reflexivity|].
  unfold rewrite, header_line.
  destruct (after r) as [|a al]; destruct (file_contents r) as [|c cl];
    cbn [List.length Nat.ltb Nat.leb andb app]; try reflexivity;
    destruct (startswith (c :: cl) (line_ending_of_file f)); reflexivity.
Qed.

Lemma fix_file_rewrite_output_witness :
  exists r,
  region_of (S (List.length (b "# old" ++ [LF] ++ b "body")))
    (b "# old" ++ [LF] ++ b "body") (b "# ") [] [] = Some r /\
  ~ (file_header r = [b "x"] /\
     (file_contents r = [] \/
      startswith (file_contents r) (line_ending_of_file (b "# old" ++ [LF] ++ b "body")) = true)) /\
  fix_file (b "# old" ++ [LF] ++ b "body") [b "x"] (b "# ") [] [] =
  Some (1, b "# x" ++ [LF] ++ [LF] ++ b "body").
Proof.
  set (f := b "# old" ++ [LF] ++ b "body").
  set (r := mkRegion [] [] [b "old"] (b "body")).
  exists r.
  assert (Hr : region_of (S (List.length f)) f (b "# ") [] [] = Some r) by reflexivity.
  assert (Hn : ~ (file_header r = [b "x"] /\
     (file_contents r = [] \/ startswith (file_contents r) (line_ending_of_file f) = true)))
    by (simpl; intros [H _]; discriminate).
  split; [exact Hr|]. split; [exact Hn|].
  rewrite (fix_file_rewrite_output f [b "x"] _ _ _ _ Hr Hn). reflexivity.
Defined.

(** C4: a line starting with a keep-before prefix is appended verbatim to
    [before], whatever else it starts with; a loop line that starts with no
    keep-before prefix but with a keep-after prefix is appended verbatim to
    [after]. Both tests are made on the raw line. *)
Theorem classification_priority : forall n prefix keep_before keep_after line rest bf af hd,
  (any_startswith line keep_before = true ->
   scan (S n) prefix keep_before keep_after line rest (bf, af, hd) =
   scan n prefix keep_before keep_after (fst (readline rest)) (snd (readline rest))
     (bf ++ line, af, hd)) /\
  (startswith line prefix = true ->
   any_startswith line keep_before = false ->
   any_startswith line keep_after = true ->
   scan (S n) prefix keep_before keep_after line rest (bf, af, hd) =
   scan n prefix keep_before keep_after (fst (readline rest)) (snd (readline rest))
     (bf, af ++ line, hd)).
Proof.
  intros n prefix keep_before keep_after line rest bf af hd. split.
  - intros Hb. simpl. unfold loop_cond, classify. rewrite Hb, Bool.orb_true_r.
    destruct (readline rest); reflexivity.
  - intros Hp Hb Ha. simpl. unfold loop_cond, classify. rewrite Hp, Hb, Ha.
    destruct (readline rest); reflexivity.
Qed.

(** C6 (amended): with a non-empty prefix and non-empty keep-before
    prefixes [fix_file] returns on every stream; with the empty prefix the
    loop never exits, whatever the fuel. *)
Theorem fix_file_termination : forall f header_lines prefix keep_before keep_after,
  (prefix <> [] -> Forall (fun k => k <> []) keep_before ->
   exists res, fix_file f header_lines prefix keep_before keep_after = Some res) /\
  (forall n, fix_file_fuel n f header_lines [] keep_before keep_after = None).
Proof.
  intros f header_lines prefix keep_before keep_after. split.
  - intros Hp Hk. unfold fix_file, fix_file_fuel.
    destruct (readline f) as [line rest] eqn:E.
    destruct (scan_some prefix keep_before keep_after Hp Hk (S (List.length f)) line rest
                ([], [], [])) as [r Hr].
    + apply readline_length in E. lia.
    + intros ->. apply readline_nil in E. tauto.
    + rewrite Hr. destruct (header_ok _ _ r); eexists; reflexivity.
  - intros n. unfold fix_file_fuel. destruct (readline f) as [line rest].
    rewrite scan_empty_prefix. reflexivity.
Qed.

(** C6: the claim as stated fails: with the empty prefix [fix_file] does
    not return on the stream [b"x\n"], for any amount of fuel. *)
Lemma fix_file_empty_prefix_diverges :
  ~ exists n res, fix_file_fuel n (b "x" ++ [LF]) [] [] [] [] = Some res.
Proof.
  intros [n [res H]]. unfold fix_file_fuel in H. simpl in H.
  rewrite scan_empty_prefix in H. discriminate.
Qed.

(** C7 (amended): a loop line starting with the prefix and with no keep
    prefix adds to the observed header the line with the prefix removed and
    whitespace stripped at both ends: what is appended is an infix of the
    text after the prefix, obtained by removing only whitespace on each
    side, and it neither begins nor ends with whitespace. *)
Theorem header_line_stripped : forall n prefix keep_before keep_after line rest bf af hd,
  startswith line prefix = true ->
  any_startswith line keep_before = false ->
  any_startswith line keep_after = false ->
  line = prefix ++ skipn (List.length prefix) line /\
  scan (S n) prefix keep_before keep_after line rest (bf, af, hd) =
  scan n prefix keep_before keep_after (fst (readline rest)) (snd (readline rest))
    (bf, af, hd ++ [strip (skipn (List.length prefix) line)]) /\
  exists u v,
    skipn (List.length prefix) line = u ++ strip (skipn (List.length prefix) line) ++ v /\
    all_space u /\ all_space v /\
    (strip (skipn (List.length prefix) line) = [] \/
     ((exists c t, strip (skipn (List.length prefix) line) = c :: t /\ isspace c = false) /\
      (exists t c, strip (skipn (List.length prefix) line) = t ++ [c] /\ isspace c = false))).
Proof.
  intros n prefix keep_before keep_after line rest bf af hd Hp Hb Ha.
  split; [apply startswith_skipn; exact Hp|]. split.
  - simpl. unfold loop_cond, classify. rewrite Hp, Hb, Ha.
    destruct (readline rest); reflexivity.
  - apply strip_spec.
Qed.

Lemma header_line_stripped_witness :
  startswith (b "#  x" ++ [LF]) (b "# ") = true /\
  any_startswith (b "#  x" ++ [LF]) [b "#!"] = false /\
  any_startswith (b "#  x" ++ [LF]) [] = false /\
  scan 2 (b "# ") [b "#!"] [] (b "#  x" ++ [LF]) [] ([], [], []) =
  Some (mkRegion [] [] [b "x"] []).
Proof.
  assert (H1 : startswith (b "#  x" ++ [LF]) (b "# ") = true) by reflexivity.
  assert (H2 : any_startswith (b "#  x" ++ [LF]) [b "#!"] = false) by reflexivity.
  assert (H3 : any_startswith (b "#  x" ++ [LF]) [] = false) by reflexivity.
  split; [exact H1|]. split; [exact H2|]. split; [exact H3|].
  destruct (header_line_stripped 1 (b "# ") [b "#!"] [] (b "#  x" ++ [LF]) [] [] [] []
              H1 H2 H3) as [_ [E _]].
  refine (eq_trans E _). reflexivity.
Defined.

(** C7: the claim as stated fails: on the line [b"#  x\n"] with prefix
    [b"# "] the observed header line is [b"x"], not the line with the
    prefix removed and only trailing whitespace stripped ([b" x"]). *)
Lemma header_line_leading_space_removed :
  region_of 6 (b "#  x" ++ [LF]) (b "# ") [] [] = Some (mkRegion [] [] [b "x"] []) /\
  rstrip (skipn 2 (b "#  x" ++ [LF])) = b " x" /\
  b "x" <> b " x".
Proof. split; [reflexivity|]. split; [reflexivity|discriminate]. Qed.

(** C8 (amended): with a non-empty prefix and non-empty keep-before
    prefixes, an empty file becomes exactly the canonical header lines,
    each as [prefix + line + b"\n"], and status 1 when the canonical
    header is non-empty; it stays empty with status 0 when it is empty. *)
Theorem fix_file_empty_file : forall header_lines prefix keep_before keep_after,
  prefix <> [] -> Forall (fun k => k <> []) keep_before ->
  (header_lines <> [] ->
   fix_file [] header_lines prefix keep_before keep_after =
   Some (1, concat (map (fun h => prefix ++ h ++ [LF]) header_lines))) /\
  (header_lines = [] ->
   fix_file [] header_lines prefix keep_before keep_after = Some (0, [])).
Proof.
  intros header_lines prefix keep_before keep_after Hp Hk.
  assert (Hr : region_of (S (List.length ([] : bytes))) [] prefix keep_before keep_after
               = Some (mkRegion [] [] [] [])).
  { cbn [region_of readline scan List.length].
    rewrite loop_cond_nil by assumption. reflexivity. }
  rewrite (fix_file_region _ header_lines _ _ _ _ Hr).
  unfold header_ok, lines_eqb, bytes_eqb. cbn [file_header file_contents].
  split.
  - intros Hn.
    destruct header_lines as [|h hs]; [contradiction|].
    simpl. unfold rewrite, header_line. simpl. rewrite !app_nil_r. reflexivity.
  - intros ->. reflexivity.
Qed.

Lemma fix_file_empty_file_witness :
  b "# " <> [] /\ Forall (fun k => k <> []) [b "#!"] /\ [b "x"] <> [] /\
  fix_file [] [b "x"] (b "# ") [b "#!"] [] = Some (1, b "# x" ++ [LF]).
Proof.
  assert (H1 : b "# " <> []) by discriminate.
  assert (H2 : Forall (fun k => k <> []) [b "#!"]) by (repeat constructor; discriminate).
  assert (H3 : [b "x"] <> []) by discriminate.
  split; [exact H1|]. split; [exact H2|]. split; [exact H3|].
  rewrite (proj1 (fix_file_empty_file [b "x"] (b "# ") [b "#!"] [] H1 H2) H3).
  reflexivity.
Defined.

(** C8: the claim as stated fails for the empty prefix: on the empty file
    the loop never exits. *)
Lemma fix_file_empty_file_empty_prefix :
  ~ exists n res, fix_file_fuel n [] [b "x"] [] [] [] = Some res.
Proof.
  intros [n [res H]]. unfold fix_file_fuel in H. simpl in H.
  rewrite scan_empty_prefix in H. discriminate.
Qed.

(** C9: the no-op verdict ignores where keep-before lines stand: the file
    [b"# x\n#!sh\n\nbody"] is left unchanged with status 0, although the
    rewrite branch would move the keep-before line ahead of the header. *)
Theorem noop_ignores_keep_lines :
  exists f header_lines prefix keep_before keep_after r,
    fix_file f header_lines prefix keep_before keep_after = Some (0, f) /\
    region_of (S (List.length f)) f prefix keep_before keep_after = Some r /\
    before r <> [] /\
    rewrite header_lines prefix (line_ending_of_file f) r =
      before r ++ concat (map (fun h => prefix ++ h ++ line_ending_of_file f) header_lines)
      ++ file_contents r /\
    rewrite header_lines prefix (line_ending_of_file f) r <> f.
Proof.
  exists (b "# x" ++ [LF] ++ b "#!sh" ++ [LF] ++ [LF] ++ b "body"), [b "x"], (b "# "),
    [b "#!"], [], (mkRegion (b "#!sh" ++ [LF]) [] [b "x"] ([LF] ++ b "body")).
  repeat split; try reflexivity; discriminate.
Qed.

(** C5 (amended): a line of the leading region that starts with a
    keep-after prefix and with no keep-before prefix is kept verbatim in the
    block of such lines, in their original order, and a rewrite writes that
    block right after the header block, separated from it by one line
    ending. *)
Theorem keep_after_block : forall f header_lines prefix keep_before keep_after ls t l out,
  splits f ls t ->
  Forall (fun x => loop_cond prefix keep_before x = true) ls ->
  loop_cond prefix keep_before (fst (readline t)) = false ->
  In l ls -> any_startswith l keep_after = true -> any_startswith l keep_before = false ->
  fix_file f header_lines prefix keep_before keep_after = Some (1, out) ->
  In l (filter (fun x => negb (any_startswith x keep_before) && any_startswith x keep_after) ls) /\
  out =
    concat (filter (fun x => any_startswith x keep_before) ls)
    ++ concat (map (fun h => prefix ++ h ++ line_ending_of_file f) header_lines)
    ++ line_ending_of_file f
    ++ concat (filter (fun x => negb (any_startswith x keep_before) &&
                                any_startswith x keep_after) ls)
    ++ match t with
       | [] => []
       | _ => if startswith t (line_ending_of_file f) then [] else line_ending_of_file f
       end
    ++ t.
Proof.
  intros f header_lines prefix keep_before keep_after ls t l out Hs A C Hin Ha Hb Hfix.
  destruct (fix_file_some_region _ _ _ _ _ _ Hfix) as [r Hr].
  destruct (fix_file_region_splits _ _ _ _ _ _ _ Hfix Hr) as [ls' [t' [Hs' [A' [C' Er]]]]].
  destruct (splits_unique prefix keep_before _ _ _ _ _ Hs A C Hs' A' C') as [<- <-].
  rewrite classify_all_spec in Er. simpl in Er.
  rewrite (fix_file_region _ header_lines _ _ _ _ Hr) in Hfix.
  destruct (header_ok header_lines (line_ending_of_file f) r); inversion Hfix; subst out.
  assert (Hl : In l (filter (fun x => negb (any_startswith x keep_before) &&
                                      any_startswith x keep_after) ls)).
  { apply filter_In. rewrite Ha, Hb. auto. }
  split; [exact Hl|].
  subst r. unfold rewrite, header_line. cbn [before after file_header file_contents].
  pose proof (splits_line_nonempty _ _ _ _ _ _ Hs A C Hin) as Hne.
  destruct l as [|c l0]; [contradiction|].
  assert (Hc : In c (concat (filter (fun x => negb (any_startswith x keep_before) &&
                                              any_startswith x keep_after) ls))).
  { apply in_concat. exists (c :: l0). split; [exact Hl|left; reflexivity]. }
  destruct (concat (filter (fun x => negb (any_startswith x keep_before) &&
                                     any_startswith x keep_after) ls)) as [|a al];
    [destruct Hc|].
  cbn [List.length Nat.ltb Nat.leb]. rewrite <- !app_assoc.
  destruct t as [|d t0]; [reflexivity|].
  cbn [List.length Nat.ltb Nat.leb andb].
  destruct (startswith (d :: t0) (line_ending_of_file f)); reflexivity.
Qed.

Lemma keep_after_block_witness :
  splits (b "# A mark" ++ [LF] ++ b "body") [b "# A mark" ++ [LF]] (b "body") /\
  Forall (fun x => loop_cond (b "# ") [] x = true) [b "# A mark" ++ [LF]] /\
  loop_cond (b "# ") [] (fst (readline (b "body"))) = false /\
  In (b "# A mark" ++ [LF]) [b "# A mark" ++ [LF]] /\
  any_startswith (b "# A mark" ++ [LF]) [b "# A"] = true /\
  any_startswith (b "# A mark" ++ [LF]) [] = false /\
  fix_file (b "# A mark" ++ [LF] ++ b "body") [b "x"] (b "# ") [] [b "# A"] =
    Some (1, b "# x" ++ [LF] ++ [LF] ++ b "# A mark" ++ [LF] ++ [LF] ++ b "body") /\
  b "# x" ++ [LF] ++ [LF] ++ b "# A mark" ++ [LF] ++ [LF] ++ b "body" =
    [] ++ (b "# x" ++ [LF]) ++ [LF] ++ (b "# A mark" ++ [LF]) ++ [LF] ++ b "body".
Proof.
  assert (H1 : splits (b "# A mark" ++ [LF] ++ b "body") [b "# A mark" ++ [LF]] (b "body")).
  { econstructor; [reflexivity|constructor]. }
  assert (H2 : Forall (fun x => loop_cond (b "# ") [] x = true) [b "# A mark" ++ [LF]])
    by (repeat constructor).
  assert (H3 : loop_cond (b "# ") [] (fst (readline (b "body"))) = false) by reflexivity.
  assert (H4 : In (b "# A mark" ++ [LF]) [b "# A mark" ++ [LF]]) by (left; reflexivity).
  assert (H5 : any_startswith (b "# A mark" ++ [LF]) [b "# A"] = true) by reflexivity.
  assert (H6 : any_startswith (b "# A mark" ++ [LF]) [] = false) by reflexivity.
  assert (H7 : fix_file (b "# A mark" ++ [LF] ++ b "body") [b "x"] (b "# ") [] [b "# A"] =
    Some (1, b "# x" ++ [LF] ++ [LF] ++ b "# A mark" ++ [LF] ++ [LF] ++ b "body"))
    by reflexivity.
  do 7 (split; [assumption|]).
  destruct (keep_after_block _ _ _ _ _ _ _ _ _ H1 H2 H3 H4 H5 H6 H7) as [_ E].
  exact E.
Defined.

(** C3 (amended): running [fix_file] on its own output returns 0 and
    leaves it unchanged, for any line ending and any body, provided: the
    prefix holds no newline; each canonical line is stripped, holds no
    newline, and once written with the detected line ending [le] is still
    detected as ending in [le] and starts with no keep prefix; the blank line
    [le] is not a leading line; and every keep-before line of the leading
    block ends with a newline and is detected as ending in [le].  The
    prefix and the keep-before prefixes are non-empty because the first run
    returns. *)
Theorem fix_file_idempotent : forall f header_lines prefix keep_before keep_after ls t st out,
  splits f ls t ->
  Forall (fun l => loop_cond prefix keep_before l = true) ls ->
  loop_cond prefix keep_before (fst (readline t)) = false ->
  ~ In LF prefix ->
  Forall (fun h => strip h = h /\ ~ In LF h /\
     line_ending_of (prefix ++ h ++ line_ending_of_file f) = line_ending_of_file f /\
     any_startswith (prefix ++ h ++ line_ending_of_file f) keep_before = false /\
     any_startswith (prefix ++ h ++ line_ending_of_file f) keep_after = false) header_lines ->
  loop_cond prefix keep_before (line_ending_of_file f) = false ->
  Forall (fun l => any_startswith l keep_before = true ->
                   endswith l [LF] = true /\ line_ending_of l = line_ending_of_file f) ls ->
  fix_file f header_lines prefix keep_before keep_after = Some (st, out) ->
  fix_file out header_lines prefix keep_before keep_after = Some (0, out).
Proof.
  intros f hl p kb ka ls t st out Hs A C HpLF Hh Hsep Hkbl Hfix.
  pose proof (fix_file_prefix_nonempty _ _ _ _ _ _ Hfix) as Hp.
  pose proof (fix_file_keep_nonempty _ _ _ _ _ _ Hfix) as Hk.
  pose proof (line_ending_shape f) as Hle.
  set (le := line_ending_of_file f) in *.
  destruct (fix_file_some_region _ _ _ _ _ _ Hfix) as [r Hr].
  destruct (region_of_splits _ _ _ _ _ _ Hr) as [ls' [t' [Hs' [A' [C' Er]]]]].
  destruct (splits_unique p kb _ _ _ _ _ Hs A C Hs' A' C') as [<- <-].
  rewrite (fix_file_region _ hl _ _ _ _ Hr) in Hfix. fold le in Hfix.
  destruct (header_ok hl le r) eqn:Hok; inversion Hfix; subst st out.
  { rewrite (fix_file_region _ hl _ _ _ _ Hr). fold le. rewrite Hok. reflexivity. }
  rewrite classify_all_spec in Er. simpl in Er. subst r.
  unfold rewrite. cbn [before after file_contents].
  set (Bl := filter (fun l => any_startswith l kb) ls).
  set (Al := filter (fun l => negb (any_startswith l kb) && any_startswith l ka) ls).
  pose proof (tail_shape le (concat Al) t Hle) as HT.
  revert HT.
  generalize ((if Nat.ltb 0 (List.length (concat Al)) then le ++ concat Al else [])
    ++ (if Nat.ltb 0 (List.length t) && negb (startswith t le) then le else []) ++ t).
  intros T HT.
  assert (HBl : Forall (fun l => complete l /\ line_ending_of l = le) Bl).
  { apply Forall_forall. intros l Hl. apply filter_In in Hl as [Hl Hb].
    rewrite Forall_forall in Hkbl. destruct (Hkbl l Hl Hb) as [He Hle0].
    split; [|exact Hle0]. apply endswith_LF_complete; [|exact He].
    pose proof (splits_shape _ _ _ Hs) as Hsh. rewrite Forall_forall in Hsh. auto. }
  set (ls2 := Bl ++ map (header_line p le) hl).
  assert (Hc2 : Forall complete ls2).
  { apply Forall_app. split.
    - eapply Forall_impl; [|exact HBl]. intros l [Hl _]. exact Hl.
    - apply Forall_map. eapply Forall_impl; [|exact Hh].
      intros h [_ [HhLF _]]. unfold header_line. rewrite app_assoc.
      apply complete_app_le; [|exact Hle].
      intros Hin. apply in_app_or in Hin as [Hin|Hin]; contradiction. }
  assert (Hs2 : splits (concat Bl ++ concat (map (header_line p le) hl) ++ T) ls2 T).
  { rewrite app_assoc, <- concat_app. apply splits_complete. exact Hc2. }
  assert (A2 : Forall (fun l => loop_cond p kb l = true) ls2).
  { apply Forall_app. split.
    - eapply Forall_impl; [|apply Forall_filter_true]. intros l Hl.
      unfold loop_cond. simpl in Hl. rewrite Hl. apply Bool.orb_true_r.
    - apply Forall_map. apply Forall_forall. intros h _.
      unfold loop_cond, header_line. rewrite startswith_app. reflexivity. }
  assert (Hcle : complete le) by (apply (complete_app_le []); [intros []|exact Hle]).
  assert (C2 : loop_cond p kb (fst (readline T)) = false).
  { destruct HT as [->|[y ->]]; [apply loop_cond_nil; assumption|].
    rewrite readline_complete by exact Hcle. exact Hsep. }
  destruct (fix_file_region_exists (concat Bl ++ concat (map (header_line p le) hl) ++ T)
              p kb ka Hp Hk) as [r2 Hr2].
  destruct (region_of_splits _ _ _ _ _ _ Hr2) as [ls2' [t2' [Hs2' [A2' [C2' Er2]]]]].
  destruct (splits_unique p kb _ _ _ _ _ Hs2 A2 C2 Hs2' A2' C2') as [<- <-].
  rewrite (fix_file_region _ hl _ _ _ _ Hr2).
  replace (header_ok hl _ r2) with true; [reflexivity|].
  symmetry. apply header_ok_spec. rewrite Er2, classify_all_spec. simpl. split.
  - unfold ls2. rewrite filter_app.
    rewrite (filter_all_false _ Bl).
    2:{ eapply Forall_impl; [|apply Forall_filter_true]. intros l Hl. simpl in Hl.
        rewrite Hl. reflexivity. }
    rewrite (filter_all_true _ (map (header_line p le) hl)).
    2:{ apply Forall_map. eapply Forall_impl; [|exact Hh].
        intros h [_ [_ [_ [Hb Ha]]]]. unfold header_line. rewrite Hb, Ha. reflexivity. }
    simpl. rewrite map_map. apply map_id_Forall. eapply Forall_impl; [|exact Hh].
    intros h [Hs0 _]. unfold header_line. rewrite skipn_length_app.
    apply strip_app_le; assumption.
  - destruct HT as [->|[y ->]]; [left; reflexivity|right].
    rewrite app_assoc, <- concat_app.
    replace (line_ending_of_file _) with le; [apply startswith_app|symmetry].
    apply line_ending_first_line; [exact Hc2|exact Hle|].
    intros l0 rest E. unfold ls2 in E.
    destruct Bl as [|l1 Bl'] eqn:EB.
    + destruct hl as [|h0 hl']; [discriminate|]. simpl in E. inversion E; subst l0.
      inversion Hh as [|? ? [_ [_ [He _]]] _]; subst. exact He.
    + simpl in E. inversion E; subst l1. inversion HBl as [|? ? [_ He] _]. exact He.
Qed.

(** C3: the claim fails; each conjunct is a file whose second run reports
    a rewrite again, one for each condition of the amended statement:
    a keep-after prefix or a keep-before prefix matching a written header
    line, a canonical line that is not stripped or holds a newline, a
    keep-before prefix matching the blank line, a keep-before line without
    newline at end of file, a keep-before line whose line ending differs
    from the first line's, a prefix holding a newline, and a written header
    line with a carriage return before its newline. *)
Lemma fix_file_not_idempotent :
  fix_file [] [b "Copyright 2025"] (b "# ") [] [b "# Copyright"] =
    Some (1, b "# Copyright 2025" ++ [LF]) /\
  fix_file (b "# Copyright 2025" ++ [LF]) [b "Copyright 2025"] (b "# ") [] [b "# Copyright"] =
    Some (1, b "# Copyright 2025" ++ [LF] ++ [LF] ++ b "# Copyright 2025" ++ [LF]) /\
  fix_file [] [b "C"] (b "# ") [b "# C"] [] = Some (1, b "# C" ++ [LF]) /\
  fix_file (b "# C" ++ [LF]) [b "C"] (b "# ") [b "# C"] [] =
    Some (1, b "# C" ++ [LF] ++ b "# C" ++ [LF]) /\
  fix_file [] [b " x"] (b "# ") [] [] = Some (1, b "#  x" ++ [LF]) /\
  fix_file (b "#  x" ++ [LF]) [b " x"] (b "# ") [] [] = Some (1, b "#  x" ++ [LF]) /\
  fix_file [] [b "a" ++ [LF] ++ b "b"] (b "# ") [] [] =
    Some (1, b "# a" ++ [LF] ++ b "b" ++ [LF]) /\
  fix_file (b "# a" ++ [LF] ++ b "b" ++ [LF]) [b "a" ++ [LF] ++ b "b"] (b "# ") [] [] =
    Some (1, b "# a" ++ [LF] ++ b "b" ++ [LF] ++ [LF] ++ b "b" ++ [LF]) /\
  fix_file (b "# x" ++ [LF] ++ b "body") [b "x"] (b "# ") [[LF]] [] =
    Some (1, b "# x" ++ [LF] ++ [LF] ++ b "body") /\
  fix_file (b "# x" ++ [LF] ++ [LF] ++ b "body") [b "x"] (b "# ") [[LF]] [] =
    Some (1, [LF] ++ b "# x" ++ [LF] ++ [LF] ++ b "body") /\
  fix_file (b "#!x") [b "a"] (b "# ") [b "#!"] [] = Some (1, b "#!x# a" ++ [LF]) /\
  fix_file (b "#!x# a" ++ [LF]) [b "a"] (b "# ") [b "#!"] [] =
    Some (1, b "#!x# a" ++ [LF] ++ b "# a" ++ [LF]) /\
  fix_file (b "# old" ++ [CR; LF] ++ b "#!kb" ++ [LF] ++ b "body" ++ [LF]) [b "x"]
    (b "# ") [b "#!"] [] =
    Some (1, b "#!kb" ++ [LF] ++ b "# x" ++ [CR; LF] ++ [CR; LF] ++ b "body" ++ [LF]) /\
  fix_file (b "#!kb" ++ [LF] ++ b "# x" ++ [CR; LF] ++ [CR; LF] ++ b "body" ++ [LF]) [b "x"]
    (b "# ") [b "#!"] [] =
    Some (1, b "#!kb" ++ [LF] ++ b "# x" ++ [LF] ++ [LF] ++ [CR; LF] ++ b "body" ++ [LF]) /\
  fix_file [] [b "x"] (b "#" ++ [LF] ++ b " ") [] [] = Some (1, b "#" ++ [LF] ++ b " x" ++ [LF]) /\
  fix_file (b "#" ++ [LF] ++ b " x" ++ [LF]) [b "x"] (b "#" ++ [LF] ++ b " ") [] [] =
    Some (1, b "#" ++ [LF] ++ b " x" ++ [LF] ++ [LF] ++ b "#" ++ [LF] ++ b " x" ++ [LF]) /\
  fix_file (b "body" ++ [LF]) [[]] (b "#" ++ [CR]) [] [] =
    Some (1, b "#" ++ [CR; LF] ++ [LF] ++ b "body" ++ [LF]) /\
  fix_file (b "#" ++ [CR; LF] ++ [LF] ++ b "body" ++ [LF]) [[]] (b "#" ++ [CR]) [] [] =
    Some (1, b "#" ++ [CR; CR; LF] ++ [CR; LF] ++ [LF] ++ b "body" ++ [LF]).
Proof. repeat split. Qed.

Lemma fix_file_idempotent_witness :
  splits (b "#!x" ++ [CR; LF] ++ b "# old" ++ [CR; LF] ++ b "body") [b "#!x" ++ [CR; LF]; b "# old" ++ [CR; LF]] (b "body") /\
  Forall (fun l => loop_cond (b "# ") [b "#!"] l = true) [b "#!x" ++ [CR; LF]; b "# old" ++ [CR; LF]] /\
  loop_cond (b "# ") [b "#!"] (fst (readline (b "body"))) = false /\
  ~ In LF (b "# ") /\
  Forall (fun h => strip h = h /\ ~ In LF h /\
     line_ending_of (b "# " ++ h ++ line_ending_of_file (b "#!x" ++ [CR; LF] ++ b "# old" ++ [CR; LF] ++ b "body")) = line_ending_of_file (b "#!x" ++ [CR; LF] ++ b "# old" ++ [CR; LF] ++ b "body") /\
     any_startswith (b "# " ++ h ++ line_ending_of_file (b "#!x" ++ [CR; LF] ++ b "# old" ++ [CR; LF] ++ b "body")) [b "#!"] = false /\
     any_startswith (b "# " ++ h ++ line_ending_of_file (b "#!x" ++ [CR; LF] ++ b "# old" ++ [CR; LF] ++ b "body")) [] = false) [b "x"] /\
  loop_cond (b "# ") [b "#!"] (line_ending_of_file (b "#!x" ++ [CR; LF] ++ b "# old" ++ [CR; LF] ++ b "body")) = false /\
  Forall (fun l => any_startswith l [b "#!"] = true ->
                   endswith l [LF] = true /\ line_ending_of l = line_ending_of_file (b "#!x" ++ [CR; LF] ++ b "# old" ++ [CR; LF] ++ b "body")) [b "#!x" ++ [CR; LF]; b "# old" ++ [CR; LF]] /\
  fix_file (b "#!x" ++ [CR; LF] ++ b "# old" ++ [CR; LF] ++ b "body") [b "x"] (b "# ") [b "#!"] [] = Some (1, (b "#!x" ++ [CR; LF] ++ b "# x" ++ [CR; LF] ++ [CR; LF] ++ b "body")) /\
  fix_file (b "#!x" ++ [CR; LF] ++ b "# x" ++ [CR; LF] ++ [CR; LF] ++ b "body") [b "x"] (b "# ") [b "#!"] [] = Some (0, (b "#!x" ++ [CR; LF] ++ b "# x" ++ [CR; LF] ++ [CR; LF] ++ b "body")).
Proof.
  assert (H1 : splits (b "#!x" ++ [CR; LF] ++ b "# old" ++ [CR; LF] ++ b "body") [b "#!x" ++ [CR; LF]; b "# old" ++ [CR; LF]] (b "body")).
  { econstructor; [reflexivity|]. econstructor; [reflexivity|]. constructor. }
  assert (H2 : Forall (fun l => loop_cond (b "# ") [b "#!"] l = true) [b "#!x" ++ [CR; LF]; b "# old" ++ [CR; LF]])
    by (repeat constructor).
  assert (H3 : loop_cond (b "# ") [b "#!"] (fst (readline (b "body"))) = false)
    by reflexivity.
  assert (H4 : ~ In LF (b "# ")) by not_in.
  assert (H5 : Forall (fun h => strip h = h /\ ~ In LF h /\
     line_ending_of (b "# " ++ h ++ line_ending_of_file (b "#!x" ++ [CR; LF] ++ b "# old" ++ [CR; LF] ++ b "body")) = line_ending_of_file (b "#!x" ++ [CR; LF] ++ b "# old" ++ [CR; LF] ++ b "body") /\
     any_startswith (b "# " ++ h ++ line_ending_of_file (b "#!x" ++ [CR; LF] ++ b "# old" ++ [CR; LF] ++ b "body")) [b "#!"] = false /\
     any_startswith (b "# " ++ h ++ line_ending_of_file (b "#!x" ++ [CR; LF] ++ b "# old" ++ [CR; LF] ++ b "body")) [] = false) [b "x"]).
  { constructor; [|constructor].
    split; [reflexivity|]. split; [not_in|]. repeat split. }
  assert (H6 : loop_cond (b "# ") [b "#!"] (line_ending_of_file (b "#!x" ++ [CR; LF] ++ b "# old" ++ [CR; LF] ++ b "body")) = false)
    by reflexivity.
  assert (H7 : Forall (fun l => any_startswith l [b "#!"] = true ->
                   endswith l [LF] = true /\ line_ending_of l = line_ending_of_file (b "#!x" ++ [CR; LF] ++ b "# old" ++ [CR; LF] ++ b "body")) [b "#!x" ++ [CR; LF]; b "# old" ++ [CR; LF]]).
  { repeat constructor. }
  assert (H8 : fix_file (b "#!x" ++ [CR; LF] ++ b "# old" ++ [CR; LF] ++ b "body") [b "x"] (b "# ") [b "#!"] [] = Some (1, (b "#!x" ++ [CR; LF] ++ b "# x" ++ [CR; LF] ++ [CR; LF] ++ b "body"))) by reflexivity.
  do 8 (split; [assumption|]).
  exact (fix_file_idempotent _ _ _ _ _ _ _ _ _ H1 H2 H3 H4 H5 H6 H7 H8).
Defined.

(** C5: the claim fails for a line that starts with both a keep-before and
    a keep-after prefix: with keep-before [b"#!"] and keep-after [b"#! A"],
    the line [b"#! A mark\n"] is written before the header, not after it. *)
Lemma keep_after_line_also_keep_before :
  any_startswith (b "#! A mark" ++ [LF]) [b "#! A"] = true /\
  fix_file (b "#! A mark" ++ [LF] ++ b "body") [b "x"] (b "# ") [b "#!"] [b "#! A"] =
    Some (1, b "#! A mark" ++ [LF] ++ b "# x" ++ [LF] ++ [LF] ++ b "body").
Proof. split; reflexivity. Qed.

(** C10 (amended): when [main]'s loop runs to its end (every file gets a
    comment prefix, opens, and [fix_file] returns), the exit code is 0 or
    1; it is 0 exactly when nothing was printed, and then no file changed;
    every file whose content changed is reported, and every printed line is
    [Updated license header in <path>] for a path of the argument list. *)
Theorem main_exit_status : forall comment_prefix header_lines keep_before keep_after
    names fs code out fs',
  main_files comment_prefix header_lines keep_before keep_after names fs =
    mkRun (Exited code) out fs' ->
  (code = 0 \/ code = 1) /\ (code = 0 <-> out = []) /\
  (code = 0 -> forall n, fs' n = fs n) /\
  (forall n, fs' n <> fs n -> In (update_message n) out) /\
  Forall (fun m => exists n, In n names /\ m = update_message n) out.
Proof.
  intros comment_prefix header_lines keep_before keep_after names fs code out fs' H.
  unfold main_files in H.
  assert (Hiff : 0 = 0 <-> ([] : list string) = []) by (split; reflexivity).
  destruct (main_loop_exit _ _ _ _ _ _ _ _ _ _ _ H (or_introl eq_refl) Hiff)
    as [Hc [Hco [Hfs [more [Em Hm]]]]].
  simpl in Em. subst more.
  split; [exact Hc|]. split; [exact Hco|]. split; [exact Hfs|].
  split; [|exact Hm].
  intros n Hn. exact (main_loop_changed _ _ _ _ _ _ _ _ _ _ _ _ H Hn).
Qed.

Lemma main_exit_status_witness :
  exists fs',
    main_files (Some "#"%string) [b "x"] [] [] ["a.py"%string] (fun _ => Some []) =
      mkRun (Exited 1) [update_message "a.py"] fs' /\
    (1 = 0 \/ 1 = 1) /\ (1 = 0 <-> [update_message "a.py"] = []) /\
    (1 = 0 -> forall n, fs' n = Some []) /\
    (forall n, fs' n <> Some [] -> In (update_message n) [update_message "a.py"]) /\
    Forall (fun m => exists n, In n ["a.py"%string] /\ m = update_message n)
      [update_message "a.py"].
Proof.
  set (fs' := fs_update (fun _ => Some []) "a.py" (b "# x" ++ [LF])).
  assert (H : main_files (Some "#"%string) [b "x"] [] [] ["a.py"%string] (fun _ => Some []) =
      mkRun (Exited 1) [update_message "a.py"] fs') by reflexivity.
  exists fs'. split; [exact H|].
  exact (main_exit_status _ _ _ _ _ _ _ _ _ H).
Defined.

(** C10: the claim fails when no file is modified but the loop stops on an
    exception: for [a.xyz] with no [--comment-prefix], the extension has no
    comment prefix, [ValueError] is raised, the process exits with 1, and
    nothing is printed or written. *)
Lemma main_unknown_extension_exits_1 :
  exit_status (outcome_of (main_files None [b "x"] [] [] ["a.xyz"%string]
                             (fun _ => Some []))) = Some 1 /\
  stdout (main_files None [b "x"] [] [] ["a.xyz"%string] (fun _ => Some [])) = [] /\
  files (main_files None [b "x"] [] [] ["a.xyz"%string] (fun _ => Some [])) "a.xyz"%string =
    Some [].
Proof. split; [|split]; reflexivity. Qed.

(** * Further properties of [fix_file], the header builder and [main] *)

(** X1: [filename.split('.')[-1]] is what follows the last dot of the name, even
    when that text holds a path separator. *)
Theorem extension_of_after_last_dot : forall s e,
  has_dot e = false -> extension_of (String.append s (String "." e)) = e.
Proof.
  induction s as [|c s IH]; intros e He.
  - simpl. rewrite He. reflexivity.
  - simpl. rewrite has_dot_app_dot. apply IH. exact He.
Qed.

Lemma extension_of_after_last_dot_witness :
  has_dot "b/Makefile"%string = false /\
  extension_of (String.append "src/a" (String "." "b/Makefile")) = "b/Makefile"%string.
Proof.
  assert (H : has_dot "b/Makefile"%string = false) by reflexivity.
  split; [exact H|]. exact (extension_of_after_last_dot "src/a"%string _ H).
Defined.

(** X2: a name with no dot is its own extension. *)
Theorem extension_of_without_dot : forall s, has_dot s = false -> extension_of s = s.
Proof.
  induction s as [|c s IH]; intros H; [reflexivity|].
  simpl in *. apply orb_false_iff in H as [Hc Hs]. rewrite Hs, Hc. reflexivity.
Qed.

Lemma extension_of_without_dot_witness :
  has_dot "Dockerfile"%string = false /\ extension_of "Dockerfile" = "Dockerfile"%string.
Proof.
  assert (H : has_dot "Dockerfile"%string = false) by reflexivity.
  split; [exact H|]. exact (extension_of_without_dot _ H).
Defined.

(** X3: an empty keep-before prefix matches every line, including the empty
    line read at end of stream, so the loop never ends, whatever the fuel. *)
Theorem fix_file_empty_keep_before_diverges : forall n f header_lines prefix keep_before keep_after,
  In [] keep_before -> fix_file_fuel n f header_lines prefix keep_before keep_after = None.
Proof. intros. apply fix_file_fuel_keep_empty. assumption. Qed.

Lemma fix_file_empty_keep_before_diverges_witness :
  In [] [b "#!"; b ""] /\
  fix_file_fuel 100 (b "# x" ++ [LF] ++ b "body") [b "x"] (b "# ") [b "#!"; b ""] [] = None.
Proof.
  assert (H : In [] [b "#!"; b ""]) by (right; left; reflexivity).
  split; [exact H|]. exact (fix_file_empty_keep_before_diverges 100 _ _ _ _ _ H).
Defined.

(** X4: when the first line neither starts with the prefix nor with a
    keep-before prefix, a non-empty header is written in front of the whole
    file, followed by one line ending unless the file is empty or already
    starts with one. *)
Theorem fix_file_prepends_header : forall f header_lines prefix keep_before keep_after,
  loop_cond prefix keep_before (fst (readline f)) = false -> header_lines <> [] ->
  fix_file f header_lines prefix keep_before keep_after =
  Some (1, concat (map (header_line prefix (line_ending_of_file f)) header_lines)
           ++ (if Nat.ltb 0 (List.length f) && negb (startswith f (line_ending_of_file f))
               then line_ending_of_file f else [])
           ++ f).
Proof.
  intros f header_lines prefix keep_before keep_after C Hne.
  rewrite fix_file_no_leading by exact C.
  destruct header_lines as [|h t]; [contradiction|]. rewrite lines_eqb_nil_cons. reflexivity.
Qed.

Lemma fix_file_prepends_header_witness :
  loop_cond (b "# ") [] (fst (readline (b "body" ++ [LF]))) = false /\
  [b "x"] <> [] /\
  fix_file (b "body" ++ [LF]) [b "x"] (b "# ") [] [] =
    Some (1, b "# x" ++ [LF] ++ [LF] ++ b "body" ++ [LF]).
Proof.
  assert (H1 : loop_cond (b "# ") [] (fst (readline (b "body" ++ [LF]))) = false)
    by reflexivity.
  assert (H2 : [b "x"] <> []) by discriminate.
  split; [exact H1|]. split; [exact H2|].
  exact (fix_file_prepends_header _ _ _ _ [] H1 H2).
Defined.

(** X5: with an empty canonical header, a non-empty file whose first line is
    not part of the leading block and that does not start with a line ending
    gets one line ending inserted at its start. *)
Theorem fix_file_empty_header_adds_blank_line : forall f prefix keep_before keep_after,
  loop_cond prefix keep_before (fst (readline f)) = false -> f <> [] ->
  startswith f (line_ending_of_file f) = false ->
  fix_file f [] prefix keep_before keep_after = Some (1, line_ending_of_file f ++ f).
Proof.
  intros f prefix keep_before keep_after C Hne Hs.
  rewrite fix_file_no_leading by exact C. rewrite lines_eqb_nil_nil, Hs.
  destruct f as [|c f']; [contradiction|]. reflexivity.
Qed.

Lemma fix_file_empty_header_adds_blank_line_witness :
  loop_cond (b "# ") [] (fst (readline (b "body" ++ [LF]))) = false /\
  b "body" ++ [LF] <> [] /\
  startswith (b "body" ++ [LF]) (line_ending_of_file (b "body" ++ [LF])) = false /\
  fix_file (b "body" ++ [LF]) [] (b "# ") [] [] = Some (1, [LF] ++ b "body" ++ [LF]).
Proof.
  assert (H1 : loop_cond (b "# ") [] (fst (readline (b "body" ++ [LF]))) = false)
    by reflexivity.
  assert (H2 : b "body" ++ [LF] <> []) by discriminate.
  assert (H3 : startswith (b "body" ++ [LF]) (line_ending_of_file (b "body" ++ [LF])) = false)
    by reflexivity.
  split; [exact H1|]. split; [exact H2|]. split; [exact H3|].
  exact (fix_file_empty_header_adds_blank_line _ _ _ [] H1 H2 H3).
Defined.

(** X6: observed header lines are stripped and hold no newline, so a canonical
    line that is not stripped or holds a newline makes every run report a
    rewrite. *)
Theorem fix_file_unclean_header_always_rewrites : forall f header_lines prefix keep_before
    keep_after h st out,
  In h header_lines -> strip h <> h \/ In LF h ->
  fix_file f header_lines prefix keep_before keep_after = Some (st, out) -> st = 1.
Proof.
  intros f header_lines prefix keep_before keep_after h st out Hin Hh Hfix.
  destruct (fix_file_some_region _ _ _ _ _ _ Hfix) as [r Hr].
  rewrite (fix_file_region _ header_lines _ _ _ _ Hr) in Hfix.
  destruct (header_ok header_lines (line_ending_of_file f) r) eqn:Hok;
    inversion Hfix; [|reflexivity].
  apply header_ok_spec in Hok as [Hhd _].
  pose proof (region_header_clean _ _ _ _ _ _ Hr) as Hc. rewrite Hhd in Hc.
  rewrite Forall_forall in Hc. destruct (Hc h Hin) as [Hcs Hcl].
  destruct Hh; contradiction.
Qed.

Lemma fix_file_unclean_header_always_rewrites_witness :
  In (b " x") [b " x"] /\ (strip (b " x") <> b " x" \/ In LF (b " x")) /\
  fix_file (b "#  x" ++ [LF]) [b " x"] (b "# ") [] [] = Some (1, b "#  x" ++ [LF]) /\
  1 = 1.
Proof.
  assert (H1 : In (b " x") [b " x"]) by (left; reflexivity).
  assert (H2 : strip (b " x") <> b " x" \/ In LF (b " x")) by (left; discriminate).
  assert (H3 : fix_file (b "#  x" ++ [LF]) [b " x"] (b "# ") [] [] =
               Some (1, b "#  x" ++ [LF])) by reflexivity.
  split; [exact H1|]. split; [exact H2|]. split; [exact H3|].
  exact (fix_file_unclean_header_always_rewrites _ _ _ _ _ _ _ _ H1 H2 H3).
Defined.

(** X7: on a file made of a written header ([prefix + line + b'\n'] per
    line) followed by a body that does not continue the leading block, the
    old header is replaced by the canonical one and the body is kept. *)
Theorem fix_file_replaces_header : forall old new prefix keep_before keep_after body,
  prefix <> [] -> ~ In LF prefix -> ~ In CR prefix ->
  Forall (fun k => k <> []) keep_before ->
  Forall (fun h => strip h = h /\ ~ In LF h /\ ~ In CR h /\
                   any_startswith (prefix ++ h ++ [LF]) keep_before = false /\
                   any_startswith (prefix ++ h ++ [LF]) keep_after = false) old ->
  old <> [] ->
  loop_cond prefix keep_before (fst (readline body)) = false ->
  fix_file (concat (map (header_line prefix [LF]) old) ++ body) new prefix
    keep_before keep_after =
  if lines_eqb old new && (bytes_eqb body [] || startswith body [LF])
  then Some (0, concat (map (header_line prefix [LF]) old) ++ body)
  else Some (1, concat (map (header_line prefix [LF]) new)
                ++ (if Nat.ltb 0 (List.length body) && negb (startswith body [LF])
                    then [LF] else [])
                ++ body).
Proof. intros. apply fix_file_written_header; assumption. Qed.

Lemma fix_file_replaces_header_witness :
  b "# " <> [] /\ ~ In LF (b "# ") /\ ~ In CR (b "# ") /\
  Forall (fun k => k <> []) ([] : list bytes) /\
  Forall (fun h => strip h = h /\ ~ In LF h /\ ~ In CR h /\
                   any_startswith (b "# " ++ h ++ [LF]) [] = false /\
                   any_startswith (b "# " ++ h ++ [LF]) [] = false) [b "Copyright 2020"] /\
  [b "Copyright 2020"] <> [] /\
  loop_cond (b "# ") [] (fst (readline ([LF] ++ b "code" ++ [LF]))) = false /\
  fix_file (b "# Copyright 2020" ++ [LF] ++ [LF] ++ b "code" ++ [LF]) [b "Copyright 2025"]
    (b "# ") [] [] =
    Some (1, b "# Copyright 2025" ++ [LF] ++ [LF] ++ b "code" ++ [LF]).
Proof.
  assert (H1 : b "# " <> []) by discriminate.
  assert (H2 : ~ In LF (b "# ")) by not_in.
  assert (H3 : ~ In CR (b "# ")) by not_in.
  assert (H4 : Forall (fun k => k <> []) ([] : list bytes)) by constructor.
  assert (H5 : Forall (fun h => strip h = h /\ ~ In LF h /\ ~ In CR h /\
                   any_startswith (b "# " ++ h ++ [LF]) [] = false /\
                   any_startswith (b "# " ++ h ++ [LF]) [] = false) [b "Copyright 2020"]).
  { constructor; [|constructor].
    split; [reflexivity|]. split; [not_in|]. split; [not_in|]. split; reflexivity. }
  assert (H6 : [b "Copyright 2020"] <> []) by discriminate.
  assert (H7 : loop_cond (b "# ") [] (fst (readline ([LF] ++ b "code" ++ [LF]))) = false)
    by reflexivity.
  do 7 (split; [assumption|]).
  exact (fix_file_replaces_header _ [b "Copyright 2025"] _ _ [] _ H1 H2 H3 H4 H5 H6 H7).
Defined.

(** X8: the header lines read from the license file are lines [start] to
    [start + num - 1], stripped, padded with empty lines past the end of the
    file, followed by the [--add] lines. *)
Theorem build_header_from_license : forall fs path content ls start num add,
  fs path = Some content -> splits content ls [] ->
  build_header fs (Some path) start num add =
  Some (map strip (firstn (Z.to_nat num) (skipn (Z.to_nat start) ls))
        ++ repeat [] (Z.to_nat num - (List.length ls - Z.to_nat start))
        ++ encode_all add).
Proof.
  intros fs path content ls start num add Hfs Hs.
  unfold build_header. rewrite Hfs.
  rewrite (read_stripped_splits _ _ _ (skip_lines_splits (Z.to_nat start) _ _ Hs)).
  rewrite length_skipn, <- app_assoc. reflexivity.
Qed.

Lemma build_header_from_license_witness :
  (fun _ : string => Some (b "Copyright 2025" ++ [LF] ++ b "Rights" ++ [LF])) "LICENSE"%string
    = Some (b "Copyright 2025" ++ [LF] ++ b "Rights" ++ [LF]) /\
  splits (b "Copyright 2025" ++ [LF] ++ b "Rights" ++ [LF])
    [b "Copyright 2025" ++ [LF]; b "Rights" ++ [LF]] [] /\
  build_header (fun _ => Some (b "Copyright 2025" ++ [LF] ++ b "Rights" ++ [LF]))
    (Some "LICENSE"%string) 1 2 (Some ["extra"%string]) =
    Some [b "Rights"; []; b "extra"].
Proof.
  assert (H1 : (fun _ : string => Some (b "Copyright 2025" ++ [LF] ++ b "Rights" ++ [LF]))
                 "LICENSE"%string = Some (b "Copyright 2025" ++ [LF] ++ b "Rights" ++ [LF]))
    by reflexivity.
  assert (H2 : splits (b "Copyright 2025" ++ [LF] ++ b "Rights" ++ [LF])
                 [b "Copyright 2025" ++ [LF]; b "Rights" ++ [LF]] []).
  { econstructor; [reflexivity|]. econstructor; [reflexivity|]. constructor. }
  split; [exact H1|]. split; [exact H2|].
  exact (build_header_from_license _ _ _ _ 1 2 (Some ["extra"%string]) H1 H2).
Defined.

(** X9: the header is [num] lines from the license file (none without a
    license file), each stripped and without newline, followed by the
    [--add] lines. *)
Theorem build_header_license_lines_clean : forall fs license_file start num add header_lines,
  build_header fs license_file start num add = Some header_lines ->
  exists license_lines,
    header_lines = license_lines ++ encode_all add /\
    List.length license_lines =
      match license_file with None => 0 | Some _ => Z.to_nat num end /\
    Forall (fun h => strip h = h /\ ~ In LF h) license_lines.
Proof.
  intros fs [path|] start num add header_lines H; unfold build_header in H.
  - destruct (fs path) as [content|]; [|discriminate]. inversion H; subst.
    destruct (read_stripped_clean (Z.to_nat num) (skip_lines (Z.to_nat start) content))
      as [H1 H2].
    eexists. split; [reflexivity|]. split; assumption.
  - inversion H; subst. exists []. split; [reflexivity|]. split; [reflexivity|constructor].
Qed.

Lemma build_header_license_lines_clean_witness :
  build_header (fun _ => Some (b " A " ++ [CR; LF])) (Some "L"%string) 0 2 None =
    Some [b "A"; []] /\
  exists license_lines,
    [b "A"; []] = license_lines ++ encode_all None /\
    List.length license_lines = Z.to_nat 2 /\
    Forall (fun h => strip h = h /\ ~ In LF h) license_lines.
Proof.
  assert (H : build_header (fun _ => Some (b " A " ++ [CR; LF])) (Some "L"%string) 0 2 None =
    Some [b "A"; []]) by reflexivity.
  split; [exact H|]. exact (build_header_license_lines_clean _ _ _ _ _ _ H).
Defined.

(** X10: [main] changes no file that is not in its argument list. *)
Theorem main_unlisted_files_unchanged : forall year_ok fs license_file start num add keep_before
    keep_after comment_prefix filenames n,
  ~ In n filenames ->
  files (main year_ok fs license_file start num add keep_before keep_after comment_prefix
           filenames) n
    = fs n.
Proof.
  intros year_ok fs license_file start num add keep_before keep_after comment_prefix filenames n Hn.
  unfold main. destruct (build_header fs license_file start num add) as [hl|]; [|reflexivity].
  destruct (check_years year_ok hl); [reflexivity|].
  apply main_loop_unlisted. exact Hn.
Qed.

Lemma main_unlisted_files_unchanged_witness :
  ~ In "b.py"%string ["a.py"%string] /\
  files (main (fun _ => true) (fun _ => Some []) None 0 1 (Some ["x"%string]) None None None
           ["a.py"%string])
    "b.py"%string = Some [].
Proof.
  assert (H : ~ In "b.py"%string ["a.py"%string]) by (intros [E|[]]; discriminate).
  split; [exact H|]. exact (main_unlisted_files_unchanged _ _ _ _ _ _ _ _ _ _ _ H).
Defined.

(** X11: without [--comment-prefix], if a listed file's extension is not in
    [file_type_comment_map], [main] never reaches [sys.exit]. *)
Theorem main_unknown_extension_no_exit : forall year_ok fs license_file start num add keep_before
    keep_after filenames n code,
  In n filenames -> map_get file_type_comment_map (extension_of n) = None ->
  outcome_of (main year_ok fs license_file start num add keep_before keep_after None filenames)
    <> Exited code.
Proof.
  intros year_ok fs license_file start num add keep_before keep_after filenames n code Hin Hn.
  unfold main. destruct (build_header fs license_file start num add) as [hl|];
    [|discriminate].
  destruct (check_years year_ok hl); [discriminate|].
  exact (main_loop_unknown_extension _ _ _ _ _ _ _ _ _ Hin Hn).
Qed.

Lemma main_unknown_extension_no_exit_witness :
  In "notes.txt"%string ["a.py"%string; "notes.txt"%string] /\
  map_get file_type_comment_map (extension_of "notes.txt"%string) = None /\
  outcome_of (main (fun _ => true) (fun _ => Some []) None 0 1 (Some ["x"%string]) None None None
                ["a.py"%string; "notes.txt"%string]) <> Exited 0.
Proof.
  assert (H1 : In "notes.txt"%string ["a.py"%string; "notes.txt"%string])
    by (right; left; reflexivity).
  assert (H2 : map_get file_type_comment_map (extension_of "notes.txt"%string) = None)
    by reflexivity.
  split; [exact H1|]. split; [exact H2|].
  exact (main_unknown_extension_no_exit _ _ _ _ _ _ _ _ _ _ 0 H1 H2).
Defined.

(** X12: with an empty [--keep-before] string and at least one file,
    [main] never reaches [sys.exit]. *)
Theorem main_empty_keep_before_no_exit : forall year_ok fs license_file start num add keep_before
    keep_after comment_prefix filenames code,
  In ""%string keep_before -> filenames <> [] ->
  outcome_of (main year_ok fs license_file start num add (Some keep_before) keep_after
                comment_prefix filenames) <> Exited code.
Proof.
  intros year_ok fs license_file start num add keep_before keep_after comment_prefix filenames code
    Hin Hne.
  unfold main. destruct (build_header fs license_file start num add) as [hl|];
    [|discriminate].
  destruct (check_years year_ok hl); [discriminate|].
  apply main_loop_keep_empty; [|exact Hne].
  change (@nil byte) with (b ""). apply in_map. exact Hin.
Qed.

Lemma main_empty_keep_before_no_exit_witness :
  In ""%string [""%string] /\ ["a.py"%string] <> [] /\
  outcome_of (main (fun _ => true) (fun _ => Some []) None 0 1 (Some ["x"%string])
                (Some [""%string]) None None ["a.py"%string]) <> Exited 0.
Proof.
  assert (H1 : In ""%string [""%string]) by (left; reflexivity).
  assert (H2 : ["a.py"%string] <> []) by discriminate.
  split; [exact H1|]. split; [exact H2|].
  exact (main_empty_keep_before_no_exit _ _ _ _ _ _ _ _ _ _ 0 H1 H2).
Defined.
